(** * AuthControllerBase: a state-passing model of the session controller

    The controller is a TypeScript class whose methods are [async]
    functions over a handful of private fields, a durable key/value
    store and the Firebase auth backend.  Every method is embedded as a
    function [World -> Res A * World]: the world holds the fields, the
    store, the backend's current user and the trace of calls made to the
    outside; [Res] says whether the promise resolved or rejected.  What
    the outside answers is an oracle ([Env]) that sees the trace so far. *)

From stdpp Require Import gmap strings list.
From Stdlib Require Import ZArith Ascii String.

Local Open Scope string_scope.
Local Open Scope Z_scope.

(** ** Constants of the module *)

Definition AuthProviderIdKey : string := "auth:providerid".
Definition UserSignInEmailStorageKey : string := "auth:signin:email".
Definition MagicLinkReasonKey : string := "auth:signin:reason".
Definition PasswordResetRequestedKey : string := "auth:passwordreset".

(** ** Declarations imported by the module

    [AuthProviders] and [MagicLinkRequestReasons] are string enums
    declared in [abstractions/IAuthController], and the sign-in method
    ids come from the Firebase SDK.  Only their use is in the source, so
    the member values are parameters of the model.  A value of type
    [AuthProviders] is a string at run time (the source casts a stored
    string to it), and [null] where the source assigns [null]. *)

Record Declarations := {
  AuthProviders_None : string;
  AuthProviders_EmailAndPassword : string;
  AuthProviders_EmailLink : string;
  AuthProviders_Google : string;
  AuthProviders_DevLogin : string;
  MagicLinkRequestReasons_PasswordReset : string;
  EMAIL_PASSWORD_SIGN_IN_METHOD : string;
  EMAIL_LINK_SIGN_IN_METHOD : string;
  GOOGLE_PROVIDER_ID : string;
}.

Inductive AuthErrors :=
| InvalidAuthState
| WrongPassword
| NeedsReauthentication.

(** ** JavaScript values *)

(** Truthiness of a value that is a string, [null] or [undefined]. *)
Definition truthy (v : option string) : bool :=
  match v with
  | Some (String _ _) => true
  | _ => false
  end.

(** [v || d] on such values. *)
Definition or_else (v : option string) (d : string) : string :=
  if truthy v then default d v else d.

(** [a === b] on such values. *)
Definition strict_eq (a b : option string) : bool :=
  bool_decide (a = b).

(** [s.includes(needle)]. *)
Fixpoint includes (needle s : string) : bool :=
  String.prefix needle s ||
  match s with
  | EmptyString => false
  | String _ s' => includes needle s'
  end.

(** An error object as the controller reads it: [code], [message] and
    [email].  A numeric [code] is kept by its decimal rendering, which is
    how the loose comparison [err.code == '-3'] sees it. *)
Record JsError := {
  err_code : option string;
  err_message : option string;
  err_email : option string;
}.

Definition TypeError (msg : string) : JsError :=
  {| err_code := None; err_message := Some msg; err_email := None |}.

(** ** Data model *)

Record FirebaseUser := {
  fb_uid : string;
  fb_displayName : option string;
  fb_email : option string;
  fb_emailVerified : bool;
  fb_phoneNumber : option string;
  fb_photoURL : option string;
}.

Record AuthUser := {
  uid : string;
  displayName : option string;
  email : option string;
  emailVerified : bool;
  phoneNumber : option string;
  photoURL : option string;
}.

Record AuthUserWithProviders := {
  user : AuthUser;
  providers : list string;
  currentProvider : option string;
}.

Record AuthResult := {
  result : bool;
  error : option AuthErrors;
  original : option JsError;
}.

Inductive EmailLinkError :=
| invalidLink
| noemail
| linkFailure (err : JsError).

Record EmailLinkResult := {
  el_result : bool;
  el_error : option EmailLinkError;
  el_email : option string;
}.

(** What [EmailAuthProvider.credential(email, password)] and
    [EmailAuthProvider.credentialWithLink(email, link)] construct. *)
Inductive Credential :=
| credential (email : option string) (password : string)
| credentialWithLink (email : option string) (link : string).

(** ** Calls to the outside and the trace *)

Inductive LogLevel := LogLog | LogWarn | LogError.

Inductive Call :=
| StorageGetValue (key : string)
| StorageSetValue (key value : string)
| StorageRemove (key : string)
| FetchSignInMethodsForEmail (email : string)
| SendSignInLinkToEmail (email url : string)
| SignInWithEmailLink (email url : string)
| SignInWithPopup
| UserUpdatePassword (password : string)
| ReauthenticateWithCredential (cred : Credential)
| LinkWithCredential (cred : Credential)
| AuthSignOut
| GoogleSignOut
| OnPreProcessUser (candidate : option AuthUserWithProviders)
| OnSignOut
| MagicLinkSucceeded (reason : option string)
| Logger (level : LogLevel) (msg : string)
| ConsoleError (err : JsError).

(** Each call is recorded together with the value the [initializing]
    getter has when the call is made: this is what an observer of the
    signal can see while an operation is suspended on the call. *)
Record Event := {
  ev_call : Call;
  ev_initializing : bool;
}.

Abbreviation Trace := (list Event).

(** ** The environment

    Every answer may depend on the calls made so far.  [None] as a fault
    means the call resolved.  A sign-in that resolves gives the user who
    becomes the backend's current user; the notification that follows
    it is a separate run of [onAuthStateChanged].
    [credentialWithLink_error] is the error the SDK throws, synchronously,
    when it cannot build an email-link credential from a link (it
    refuses a URL that is not an email action link). *)
Record Env := {
  locationUrl : string;
  storageFault : Trace -> Call -> option JsError;
  fetchSignInMethodsForEmail : Trace -> string -> JsError + list string;
  sendSignInLinkToEmail : Trace -> string -> string -> option JsError;
  isSignInWithEmailLink : string -> bool;
  signInWithEmailLink : Trace -> string -> string -> JsError + FirebaseUser;
  signInWithPopup : Trace -> JsError + option FirebaseUser;
  user_updatePassword : Trace -> string -> option JsError;
  reauthenticateWithCredential : Trace -> Credential -> option JsError;
  linkWithCredential : Trace -> Credential -> option JsError;
  credentialWithLink_error : option string -> string -> option JsError;
  auth_signOut : Trace -> option JsError;
  googleSignOut : Trace -> option JsError;
  handlersFault : Trace -> Call -> option JsError;
}.

(** ** The world *)

Record World := {
  _authUser : option AuthUserWithProviders;
  _initializing : Z;
  _nextProvider : option string;
  _setPasswordMode : bool;
  _firstInit : bool;
  storage : gmap string string;
  currentUser : option FirebaseUser;
  trace : Trace;
  unhandled : list JsError;
}.

(** The state of a controller right after its constructor. *)
Definition constructed (st : gmap string string) (u : option FirebaseUser) : World :=
  {| _authUser := None; _initializing := 0; _nextProvider := None;
     _setPasswordMode := false; _firstInit := true;
     storage := st; currentUser := u; trace := []; unhandled := [] |}.

Definition set_authUser (v : option AuthUserWithProviders) (w : World) : World :=
  {| _authUser := v; _initializing := _initializing w;
     _nextProvider := _nextProvider w; _setPasswordMode := _setPasswordMode w;
     _firstInit := _firstInit w; storage := storage w;
     currentUser := currentUser w; trace := trace w; unhandled := unhandled w |}.

Definition set_initializing (v : Z) (w : World) : World :=
  {| _authUser := _authUser w; _initializing := v;
     _nextProvider := _nextProvider w; _setPasswordMode := _setPasswordMode w;
     _firstInit := _firstInit w; storage := storage w;
     currentUser := currentUser w; trace := trace w; unhandled := unhandled w |}.

Definition set_nextProvider (v : option string) (w : World) : World :=
  {| _authUser := _authUser w; _initializing := _initializing w;
     _nextProvider := v; _setPasswordMode := _setPasswordMode w;
     _firstInit := _firstInit w; storage := storage w;
     currentUser := currentUser w; trace := trace w; unhandled := unhandled w |}.

Definition set_setPasswordMode (v : bool) (w : World) : World :=
  {| _authUser := _authUser w; _initializing := _initializing w;
     _nextProvider := _nextProvider w; _setPasswordMode := v;
     _firstInit := _firstInit w; storage := storage w;
     currentUser := currentUser w; trace := trace w; unhandled := unhandled w |}.

Definition set_firstInit (v : bool) (w : World) : World :=
  {| _authUser := _authUser w; _initializing := _initializing w;
     _nextProvider := _nextProvider w; _setPasswordMode := _setPasswordMode w;
     _firstInit := v; storage := storage w;
     currentUser := currentUser w; trace := trace w; unhandled := unhandled w |}.

Definition set_storage (v : gmap string string) (w : World) : World :=
  {| _authUser := _authUser w; _initializing := _initializing w;
     _nextProvider := _nextProvider w; _setPasswordMode := _setPasswordMode w;
     _firstInit := _firstInit w; storage := v;
     currentUser := currentUser w; trace := trace w; unhandled := unhandled w |}.

Definition set_currentUser (v : option FirebaseUser) (w : World) : World :=
  {| _authUser := _authUser w; _initializing := _initializing w;
     _nextProvider := _nextProvider w; _setPasswordMode := _setPasswordMode w;
     _firstInit := _firstInit w; storage := storage w;
     currentUser := v; trace := trace w; unhandled := unhandled w |}.

Definition set_trace (v : Trace) (w : World) : World :=
  {| _authUser := _authUser w; _initializing := _initializing w;
     _nextProvider := _nextProvider w; _setPasswordMode := _setPasswordMode w;
     _firstInit := _firstInit w; storage := storage w;
     currentUser := currentUser w; trace := v; unhandled := unhandled w |}.

Definition set_unhandled (v : list JsError) (w : World) : World :=
  {| _authUser := _authUser w; _initializing := _initializing w;
     _nextProvider := _nextProvider w; _setPasswordMode := _setPasswordMode w;
     _firstInit := _firstInit w; storage := storage w;
     currentUser := currentUser w; trace := trace w; unhandled := v |}.

(** [get initializing()]. *)
Definition initializing (w : World) : bool :=
  _firstInit w || negb (_initializing w =? 0).

(** ** Promises as a state and error monad *)

Inductive Res (A : Type) :=
| Ok (a : A)
| Throw (e : JsError).
Arguments Ok {A} a.
Arguments Throw {A} e.

Definition M (A : Type) : Type := World -> Res A * World.

Definition ret {A} (a : A) : M A := fun w => (Ok a, w).

Definition throw {A} (e : JsError) : M A := fun w => (Throw e, w).

Definition bind {A B} (m : M A) (k : A -> M B) : M B :=
  fun w =>
    match m w with
    | (Ok a, w') => k a w'
    | (Throw e, w') => (Throw e, w')
    end.

(** [try { m } catch (err) { h err }]. *)
Definition try_catch {A} (m : M A) (h : JsError -> M A) : M A :=
  fun w =>
    match m w with
    | (Ok a, w') => (Ok a, w')
    | (Throw e, w') => h e w'
    end.

(** [try { m } finally { f }], for an [f] that does not throw. *)
Definition try_finally {A} (m : M A) (f : World -> World) : M A :=
  fun w => let '(r, w') := m w in (r, f w').

(** Work whose promise nobody awaits.  The caller that started it has
    gone on, and returned, before any awaited step of it settles, so the
    work is never part of the caller's own run; [settle m] is that work
    taken up later and followed to its end.  Whether it resolves or
    rejects, no one is told: a rejection is left unhandled. *)
Definition settle {A} (m : M A) : M unit :=
  fun w =>
    match m w with
    | (Ok _, w') => (Ok tt, w')
    | (Throw e, w') => (Ok tt, set_unhandled (e :: unhandled w') w')
    end.

Declare Scope promise_scope.
Delimit Scope promise_scope with promise.
Notation "'let*' x ':=' m 'in' k" := (bind m (fun x => k))
  (at level 10, x name, m at level 100, k at level 200) : promise_scope.
Notation "m ';;' k" := (bind m (fun _ => k))
  (at level 100, k at level 200, right associativity) : promise_scope.
Local Open Scope promise_scope.

Definition modify (f : World -> World) : M unit := fun w => (Ok tt, f w).

Definition gets {A} (f : World -> A) : M A := fun w => (Ok (f w), w).

Definition emit (c : Call) : M unit :=
  modify (fun w =>
    set_trace ({| ev_call := c; ev_initializing := initializing w |} :: trace w) w).

(** A call that resolves with a value or rejects, as the oracle says;
    the oracle is asked at the trace before the call. *)
Definition call {A} (c : Call) (answer : Trace -> JsError + A) : M A :=
  fun w =>
    match answer (trace w) with
    | inl e => (Throw e, snd (emit c w))
    | inr a => (Ok a, snd (emit c w))
    end.

(** A call that resolves with nothing or rejects. *)
Definition external (c : Call) (answer : Trace -> option JsError) : M unit :=
  call c (fun tr => match answer tr with Some e => inl e | None => inr tt end).

Definition logger_log (msg : string) : M unit := emit (Logger LogLog msg).
Definition logger_warn (msg : string) : M unit := emit (Logger LogWarn msg).
Definition logger_error (msg : string) : M unit := emit (Logger LogError msg).

(** ** Helpers of [@zajno/common] *)

Definition is_space (c : ascii) : bool :=
  let n := nat_of_ascii c in
  ((9 <=? n)%nat && (n <=? 13)%nat) || (n =? 32)%nat.

Definition to_lower (c : ascii) : ascii :=
  let n := nat_of_ascii c in
  if ((65 <=? n)%nat && (n <=? 90)%nat) then ascii_of_nat (n + 32) else c.

Fixpoint trimStart (s : string) : string :=
  match s with
  | EmptyString => EmptyString
  | String c s' => if is_space c then trimStart s' else s
  end.

Fixpoint trimEnd (s : string) : string :=
  match s with
  | EmptyString => EmptyString
  | String c s' =>
      match trimEnd s' with
      | EmptyString => if is_space c then EmptyString else String c EmptyString
      | r => String c r
      end
  end.

Fixpoint toLowerCase (s : string) : string :=
  match s with
  | EmptyString => EmptyString
  | String c s' => String (to_lower c) (toLowerCase s')
  end.

(** Modelled from the spec: [prepareEmail] of [@zajno/common/lib/emails]
    is not among the sources.  The spec says that the address is
    normalized, "trimmed/lowercased", and that an absent pending email
    means the user is not mid-flow; so an absent value gives the empty
    (falsy) string.  Whitespace and letters are the ASCII ones. *)
Definition prepareEmail (email : option string) : string :=
  match email with
  | None => EmptyString
  | Some s => toLowerCase (trimEnd (trimStart s))
  end.

(** ** The controller *)

Section AuthControllerBase.

Context (decl : Declarations) (env : Env).

(** *** The store ([this.Storage]) *)

Definition Storage_getValue (key : string) : M (option string) :=
  external (StorageGetValue key)
    (fun tr => storageFault env tr (StorageGetValue key)) ;;
  gets (fun w => storage w !! key).

Definition Storage_setValue (key value : string) : M unit :=
  external (StorageSetValue key value)
    (fun tr => storageFault env tr (StorageSetValue key value)) ;;
  modify (fun w => set_storage (<[key := value]> (storage w)) w).

Definition Storage_remove (key : string) : M unit :=
  external (StorageRemove key)
    (fun tr => storageFault env tr (StorageRemove key)) ;;
  modify (fun w => set_storage (delete key (storage w)) w).

(** *** Events ([Event.trigger], [Event.triggerAsync])

    Handlers are code outside the controller, and [Event] of
    [@zajno/common/lib/event] is not among the sources.  The library
    runs the handlers inside a [try]: a handler that throws or rejects
    is caught and logged by the library, and the trigger returns (for
    [triggerAsync], resolves) all the same.  [handlersFault] says whether
    a handler fails; the controller never sees it.  What a handler does
    to the controller, or to the snapshot it is handed, is not part of
    the model. *)

Definition trigger (c : Call) : M unit :=
  try_catch
    (external c (fun tr => handlersFault env tr c))
    (fun _ => ret tt).

(** *** Getters and small methods *)

(** The test [!this.authUser.providers] never holds: [providers] is
    always an array. *)
Definition needsCreatePassword (w : World) : option bool :=
  match _authUser w with
  | None => None
  | Some u =>
      if negb (truthy (currentProvider u))
         || strict_eq (currentProvider u) (Some (AuthProviders_Google decl))
         || strict_eq (currentProvider u) (Some (AuthProviders_DevLogin decl))
      then None
      else Some (negb (bool_decide (AuthProviders_EmailAndPassword decl ∈ providers u)))
  end.

Definition createAuthUser (w : World) : option AuthUser :=
  match currentUser w with
  | Some authUser =>
      Some {| uid := fb_uid authUser;
              displayName := fb_displayName authUser;
              email := fb_email authUser;
              emailVerified := fb_emailVerified authUser;
              phoneNumber := fb_phoneNumber authUser;
              photoURL := fb_photoURL authUser |}
  | None => None
  end.

Definition forceEnableSetPasswordMode : M unit :=
  modify (set_setPasswordMode true).

Definition setNextProvider (p : string) : M unit :=
  logger_log "next provider =>" ;;
  modify (set_nextProvider (Some p)).

(** The [switch] of [getEmailAuthMethod]: the first matching case wins. *)
Definition toAuthProvider (m : string) : option string :=
  if bool_decide (m = EMAIL_PASSWORD_SIGN_IN_METHOD decl)
  then Some (AuthProviders_EmailAndPassword decl)
  else if bool_decide (m = EMAIL_LINK_SIGN_IN_METHOD decl)
  then Some (AuthProviders_EmailLink decl)
  else if bool_decide (m = GOOGLE_PROVIDER_ID decl)
  then Some (AuthProviders_Google decl)
  else None.

(** [.map(...).filter(m => m)]. *)
Definition mapMethods (methods : list string) : list string :=
  omap (fun m => match toAuthProvider m with
                 | Some p => if truthy (Some p) then Some p else None
                 | None => None
                 end) methods.

Definition getEmailAuthMethod (email : option string) : M (list string) :=
  let* methods :=
    (if truthy email
     then
       let e := default EmptyString email in
       call (FetchSignInMethodsForEmail e)
         (fun tr => fetchSignInMethodsForEmail env tr e)
     else ret []) in
  let results := mapMethods methods in
  (if bool_decide (results = [])
   then logger_log "No auth methods for email"
   else ret tt) ;;
  ret results.

(** *** [processAuthUser] *)

Definition processAuthUser : M unit :=
  modify (set_firstInit false) ;;
  let* authUser := gets currentUser in
  let* methods :=
    match authUser with
    | Some u =>
        if truthy (fb_email u)
        then let* ms := getEmailAuthMethod (fb_email u) in ret (Some ms)
        else ret None
    | None => ret None
    end in
  let* provider :=
    match authUser with
    | None => ret None
    | Some _ =>
        let* next := gets _nextProvider in
        if truthy next
        then
          modify (set_nextProvider None) ;;
          Storage_setValue AuthProviderIdKey (default EmptyString next) ;;
          ret next
        else
          let* stored := Storage_getValue AuthProviderIdKey in
          ret (Some (or_else stored EmptyString))
    end in
  logger_log "Initializing with user:" ;;
  let* signedIn :=
    gets (fun w => negb (bool_decide (is_Some (_authUser w)))
                   && bool_decide (is_Some authUser)) in
  let* result :=
    gets (fun w => match createAuthUser w with
                   | Some r => Some {| user := r;
                                       providers := default [] methods;
                                       currentProvider := provider |}
                   | None => None
                   end) in
  trigger (OnPreProcessUser result) ;;
  modify (set_authUser result) ;;
  if signedIn
  then
    let* createPassword := gets needsCreatePassword in
    let* resetPassword :=
      (if strict_eq provider (Some (AuthProviders_EmailLink decl))
       then let* flag := Storage_getValue PasswordResetRequestedKey in
            ret (strict_eq flag (Some "true"))
       else ret false) in
    if default false createPassword || resetPassword
    then logger_log "Setting _setPasswordMode = true createPassword =" ;;
         modify (set_setPasswordMode true)
    else ret tt
  else ret tt.

(** *** [doInitialization] and the subscription of the constructor *)

Definition doInitialization {T} (cb : M T) : M T :=
  try_finally
    (modify (fun w => set_initializing (_initializing w + 1) w) ;;
     let* res := cb in
     ret res)
    (fun w => set_initializing (_initializing w - 1) w).

(** The callback the constructor subscribes starts a reconciliation
    under the gate at every notification and hands its promise to no
    one: this is that reconciliation, followed until it settles. *)
Definition onAuthStateChanged : M unit :=
  settle (doInitialization processAuthUser).

(** *** The magic link *)

Definition sendMagicLinkRequest (email0 : string) (reason : option string) : M unit :=
  let email := prepareEmail (Some email0) in
  logger_log "sendMagicLinkRequest" ;;
  Storage_setValue UserSignInEmailStorageKey email ;;
  Storage_setValue MagicLinkReasonKey (or_else reason "empty") ;;
  Storage_remove PasswordResetRequestedKey ;;
  external (SendSignInLinkToEmail email (locationUrl env))
    (fun tr => sendSignInLinkToEmail env tr email (locationUrl env)).

Definition signInWithEmailLink_method (email : string) (reason : option string) : M unit :=
  sendMagicLinkRequest email reason.

(** The local [email] is reassigned inside the [try] before any step
    that can reject (the URL test and [prepareEmail] do not), so the
    handler sees the prepared value. *)
Definition processEmailLink : M EmailLinkResult :=
  let* email0 := Storage_getValue UserSignInEmailStorageKey in
  let url := locationUrl env in
  let email := prepareEmail email0 in
  try_catch
    (if negb (isSignInWithEmailLink env url)
     then logger_log "Current path is not sign in link:" ;;
          ret {| el_result := false; el_error := Some invalidLink; el_email := None |}
     else if negb (truthy (Some email))
     then logger_log "User was not performing a sign in" ;;
          ret {| el_result := false; el_error := Some noemail; el_email := None |}
     else
       setNextProvider (AuthProviders_EmailLink decl) ;;
       (let* u := call (SignInWithEmailLink email url)
                    (fun tr => signInWithEmailLink env tr email url) in
        modify (set_currentUser (Some u))) ;;
       let* reason := Storage_getValue MagicLinkReasonKey in
       logger_log "processEmailLink reason =" ;;
       (if strict_eq reason (Some (MagicLinkRequestReasons_PasswordReset decl))
        then Storage_setValue PasswordResetRequestedKey "true" ;;
             modify (set_setPasswordMode true)
        else ret tt) ;;
       Storage_remove MagicLinkReasonKey ;;
       Storage_remove UserSignInEmailStorageKey ;;
       logger_log "processEmailLink succeed with reason =" ;;
       trigger (MagicLinkSucceeded reason) ;;
       ret {| el_result := true; el_error := None; el_email := None |})
    (fun err =>
       setNextProvider (AuthProviders_None decl) ;;
       logger_error "Failed to perform a sign in for user:" ;;
       ret {| el_result := false; el_error := Some (linkFailure err);
              el_email := Some email |}).

(** *** [updatePassword]

    The method calls itself once re-authentication went through.
    [updatePassword_body] is one activation, with the method itself as
    [self]; the recursion is cut by [fuel], [Ok None] says the fuel ran
    out, and [updatePassword_total] below shows that two activations are
    always enough. *)

(** [this._authUser.providers = methods]. *)
Definition set_providers (methods : list string) : M unit :=
  let* snapshot := gets _authUser in
  match snapshot with
  | None => throw (TypeError "Cannot set properties of null")
  | Some u =>
      modify (set_authUser
                (Some {| user := user u; providers := methods;
                         currentProvider := currentProvider u |}))
  end.

(** [this.authUser.email]. *)
Definition authUser_email : M (option string) :=
  let* snapshot := gets _authUser in
  match snapshot with
  | None => throw (TypeError "Cannot read properties of null")
  | Some u => ret (email (user u))
  end.

Definition updatePassword_body
    (self : string -> option string -> M (option AuthResult))
    (password : string) (oldPassword : option string) : M (option AuthResult) :=
  let* authUser := gets currentUser in
  match authUser with
  | None =>
      ret (Some {| result := false; error := Some InvalidAuthState;
                   original := None |})
  | Some fbUser =>
      try_catch
        (external (UserUpdatePassword password)
           (fun tr => user_updatePassword env tr password) ;;
         logger_log "password updated successfully!!" ;;
         let* methods := getEmailAuthMethod (fb_email fbUser) in
         set_providers methods ;;
         modify (set_setPasswordMode false) ;;
         Storage_remove PasswordResetRequestedKey ;;
         ret (Some {| result := true; error := None; original := None |}))
        (fun err =>
           logger_log "failed to update password:" ;;
           if strict_eq (err_code err) (Some "auth/requires-recent-login")
           then
             if truthy oldPassword
             then
               let* sessionEmail := authUser_email in
               let cred := credential sessionEmail (default EmptyString oldPassword) in
               let* failed :=
                 try_catch
                   (logger_log "re-authenticating with email/password for" ;;
                    external (ReauthenticateWithCredential cred)
                      (fun tr => reauthenticateWithCredential env tr cred) ;;
                    ret None)
                   (fun err2 =>
                      logger_log "failed to re-authenticate, ERROR:" ;;
                      ret (Some {| result := false;
                                   error :=
                                     Some (if strict_eq (err_code err2)
                                                (Some "auth/wrong-password")
                                           then WrongPassword
                                           else InvalidAuthState);
                                   original := Some err2 |})) in
               match failed with
               | Some r => ret (Some r)
               | None => self password None
               end
             else
               ret (Some {| result := false; error := Some NeedsReauthentication;
                            original := Some err |})
           else throw err)
  end.

Fixpoint updatePassword_fuel (fuel : nat) (password : string)
    (oldPassword : option string) : M (option AuthResult) :=
  match fuel with
  | O => ret None
  | S fuel' => updatePassword_body (updatePassword_fuel fuel') password oldPassword
  end.

Definition updatePassword (password : string) (oldPassword : option string)
  : M (option AuthResult) :=
  updatePassword_fuel 2 password oldPassword.

(** *** Google *)

Definition doGoogleSignIn : M (option FirebaseUser) :=
  let* popup := call SignInWithPopup (signInWithPopup env) in
  match popup with
  | Some u => modify (set_currentUser (Some u)) ;; ret popup
  | None => ret popup
  end.

(** [err.code == '-3' || (err.message && err.message.includes('error -3'))]. *)
Definition isCancel (err : JsError) : bool :=
  strict_eq (err_code err) (Some "-3")
  || (truthy (err_message err) && includes "error -3" (default EmptyString (err_message err))).

(** [Firebase.Instance.auth.currentUser.linkWithCredential(cred)]. *)
Definition currentUser_linkWithCredential (cred : Credential) : M unit :=
  let* fbUser := gets currentUser in
  match fbUser with
  | None => throw (TypeError "Cannot read properties of null")
  | Some _ =>
      external (LinkWithCredential cred)
        (fun tr => linkWithCredential env tr cred)
  end.

(** [EmailAuthProvider.credentialWithLink(email, link)]: a synchronous
    call of the SDK, which throws when it refuses the link. *)
Definition EmailAuthProvider_credentialWithLink (email : option string)
    (link : string) : M Credential :=
  match credentialWithLink_error env email link with
  | Some e => throw e
  | None => ret (credentialWithLink email link)
  end.

(** The email-link credential is built in the outer [catch], before the
    inner [try]: when the SDK throws there, that error leaves
    [signInWithGoogle] and nothing is linked. *)
Definition signInWithGoogle : M bool :=
  try_catch
    (setNextProvider (AuthProviders_Google decl) ;;
     let* popup := doGoogleSignIn in
     match popup with
     | None =>
         logger_warn "Google SignIn: no result (probably canceled)" ;;
         setNextProvider (AuthProviders_None decl) ;;
         ret false
     | Some _ =>
         logger_log "Google: Successfully signed in with user" ;;
         ret true
     end)
    (fun err =>
       setNextProvider (AuthProviders_None decl) ;;
       if isCancel err
       then logger_log "Cancel sign in with google" ;;
            ret false
       else
         logger_warn "Google Sign in error:" ;;
         let errorCode := err_code err in
         let email := err_email err in
         let* linked :=
           (if strict_eq errorCode (Some "auth/account-exists-with-different-credential")
            then
              let* emailCredential :=
                EmailAuthProvider_credentialWithLink email (locationUrl env) in
              try_catch
                (currentUser_linkWithCredential emailCredential ;;
                 ret true)
                (fun innerErr => ret false)
            else ret false) in
         if linked then ret false else throw err).

(** *** [signOut] *)

Definition servicesSignOut : M unit :=
  external GoogleSignOut (googleSignOut env).

(** The awaited steps of the callback that [signOut] hands to
    [doInitialization], from its first [await] on. *)
Definition signOut_steps : M unit :=
  trigger OnSignOut ;;
  servicesSignOut ;;
  Storage_remove AuthProviderIdKey ;;
  Storage_remove MagicLinkReasonKey ;;
  external AuthSignOut (auth_signOut env) ;;
  modify (set_currentUser None).

(** The [catch] of that callback. *)
Definition signOut_failed (err : JsError) : M unit :=
  logger_warn "Failed to sign out!" ;;
  emit (ConsoleError err) ;;
  throw err.

(** The callback as a whole. *)
Definition signOut_guarded : M unit :=
  try_catch
    (modify (set_setPasswordMode false) ;;
     signOut_steps)
    signOut_failed.

(** [signOut] is [async] but awaits nothing: it logs, calls
    [doInitialization] and drops the promise.  That call runs up to the
    first [await] of the callback, so the counter is raised and
    password-setup mode is off, and then [signOut] returns: its promise
    resolves while the awaited steps are still to come. *)
Definition signOut : M unit :=
  logger_log "Signing out..." ;;
  modify (fun w => set_initializing (_initializing w + 1) w) ;;
  modify (set_setPasswordMode false).

(** What is in flight when [signOut] has resolved: the awaited steps
    with their [catch], and the [finally] of [doInitialization].
    [signOut_splits] below shows that [signOut] followed by this is the
    source's body, [doInitialization] of the callback after the log. *)
Definition signOut_in_flight : M unit :=
  try_finally
    (try_catch signOut_steps signOut_failed)
    (fun w => set_initializing (_initializing w - 1) w).

End AuthControllerBase.

(** ** Notions used in the statements *)

Section Statements.

Context (decl : Declarations).

(** The provider a reconciliation resolves for a backend user. *)
Definition resolvedProvider (w : World) : option string :=
  if truthy (_nextProvider w) then _nextProvider w
  else Some (or_else (storage w !! AuthProviderIdKey) EmptyString).

(** Condition under which a sign-in turns password-setup mode on. *)
Definition passwordSetup (snap : AuthUserWithProviders) (flag : option string) : bool :=
  (truthy (currentProvider snap)
   && negb (strict_eq (currentProvider snap) (Some (AuthProviders_Google decl)))
   && negb (strict_eq (currentProvider snap) (Some (AuthProviders_DevLogin decl)))
   && negb (bool_decide (AuthProviders_EmailAndPassword decl ∈ providers snap)))
  || (strict_eq (currentProvider snap) (Some (AuthProviders_EmailLink decl))
      && strict_eq flag (Some "true")).

(** What an observer of [initializing] saw at an event. *)
Definition busy (e : Event) : Prop := ev_initializing e = true.

(** A computation respects the gate when it leaves the counter and the
    first-boot flag alone and, started with the counter raised, makes all
    its calls while [initializing] reads [true]. *)
Definition gated {A} (m : M A) : Prop :=
  forall (w : World) (r : Res A) (w' : World),
    m w = (r, w') ->
    _initializing w' = _initializing w
    /\ _firstInit w' = _firstInit w
    /\ (0 < _initializing w ->
        exists new : Trace, trace w' = (new ++ trace w)%list /\ Forall busy new).

Definition is_updatePassword (c : Call) : bool :=
  match c with
  | UserUpdatePassword _ => true
  | _ => false
  end.

(** How many times the backend was asked to update the password. *)
Definition updatePassword_calls (tr : Trace) : nat :=
  List.length (List.filter (fun e => is_updatePassword (ev_call e)) tr).

(** The world once the backend has rejected the update and the
    rejection has been logged. *)
Definition after_failed_update (password : string) (w : World) : World :=
  snd (logger_log "failed to update password:"
         (snd (emit (UserUpdatePassword password) w))).

(** The world in which the re-authentication call is made. *)
Definition before_reauthentication (password : string) (w : World) : World :=
  snd (logger_log "re-authenticating with email/password for"
         (after_failed_update password w)).

(** A string that does not start with white space. *)
Definition no_leading_space (s : string) : Prop :=
  match s with
  | EmptyString => True
  | String c _ => is_space c = false
  end.

(** Nothing but the trace differs between two worlds. *)
Definition same_state (w w' : World) : Prop :=
  _authUser w' = _authUser w
  /\ _initializing w' = _initializing w
  /\ _nextProvider w' = _nextProvider w
  /\ _setPasswordMode w' = _setPasswordMode w
  /\ _firstInit w' = _firstInit w
  /\ storage w' = storage w
  /\ currentUser w' = currentUser w
  /\ unhandled w' = unhandled w.

(** The world in which [processEmailLink] asks the backend to redeem
    the link. *)
Definition before_redemption (w : World) : World :=
  snd (setNextProvider (AuthProviders_EmailLink decl)
         (snd (emit (StorageGetValue UserSignInEmailStorageKey) w))).

(** The world in which the popup is opened. *)
Definition before_popup (w : World) : World :=
  snd (setNextProvider (AuthProviders_Google decl) w).


End Statements.

(** The condition of C2 in the claim's own words. *)
Definition passwordSetup_as_stated (decl : Declarations)
    (snap : AuthUserWithProviders) (flag : option string) : bool :=
  (negb (bool_decide (AuthProviders_EmailAndPassword decl ∈ providers snap))
   && negb (strict_eq (currentProvider snap) (Some (AuthProviders_Google decl)))
   && negb (strict_eq (currentProvider snap) (Some (AuthProviders_DevLogin decl))))
  || (strict_eq (currentProvider snap) (Some (AuthProviders_EmailLink decl))
      && strict_eq flag (Some "true")).

(** ** Worked inputs

    One assignment of the enum members and of the SDK ids, one backend
    user, and a backend and store that accept everything. *)

Definition exampleDecl : Declarations :=
  {| AuthProviders_None := "";
     AuthProviders_EmailAndPassword := "password";
     AuthProviders_EmailLink := "emaillink";
     AuthProviders_Google := "google";
     AuthProviders_DevLogin := "devLogin";
     MagicLinkRequestReasons_PasswordReset := "password";
     EMAIL_PASSWORD_SIGN_IN_METHOD := "password";
     EMAIL_LINK_SIGN_IN_METHOD := "emailLink";
     GOOGLE_PROVIDER_ID := "google.com" |}.

Definition alice : FirebaseUser :=
  {| fb_uid := "u1"; fb_displayName := None; fb_email := Some "alice@example.com";
     fb_emailVerified := true; fb_phoneNumber := None; fb_photoURL := None |}.

(** A backend scripted by its answers; the store and the event handlers
    never fail, and the SDK builds a credential from any link. *)
Definition scripted (methods : list string) (isLink : bool)
    (link : JsError + FirebaseUser) (popup : JsError + option FirebaseUser)
    (update : Trace -> option JsError)
    (reauth linkCred signedOut : option JsError) : Env :=
  {| locationUrl := "https://app.example.com/?link";
     storageFault := fun _ _ => None;
     fetchSignInMethodsForEmail := fun _ _ => inr methods;
     sendSignInLinkToEmail := fun _ _ _ => None;
     isSignInWithEmailLink := fun _ => isLink;
     signInWithEmailLink := fun _ _ _ => link;
     signInWithPopup := fun _ => popup;
     user_updatePassword := fun tr _ => update tr;
     reauthenticateWithCredential := fun _ _ => reauth;
     linkWithCredential := fun _ _ => linkCred;
     credentialWithLink_error := fun _ _ => None;
     auth_signOut := fun _ => signedOut;
     googleSignOut := fun _ => None;
     handlersFault := fun _ _ => None |}.

Definition accepting (methods : list string) : Env :=
  scripted methods true (inr alice) (inr (Some alice)) (fun _ => None)
    None None None.

Definition failure (code : string) : JsError :=
  {| err_code := Some code; err_message := None; err_email := None |}.



(** ** The rest of the controller *)

Section OtherMethods.

Context (decl : Declarations) (env : Env).

(** [getHasAccount]: [methods.length > 0]. *)
Definition getHasAccount (email : option string) : M bool :=
  let* methods := getEmailAuthMethod decl env email in
  ret (0 <? List.length methods)%nat.

(** [skipPasswordMode] is not [async]: it turns password-setup mode
    off, starts the removal of the flag and returns, dropping the
    promise of [Storage.remove]. *)
Definition skipPasswordMode : M unit :=
  modify (set_setPasswordMode false).

(** What is in flight when [skipPasswordMode] has returned. *)
Definition skipPasswordMode_in_flight : M unit :=
  Storage_remove env PasswordResetRequestedKey.

(** The environment has no answer for the three SDK calls below.  Each
    is a parameter of the method that makes it: any promise over the
    world. *)
Section Sdk.

Variable auth_signInWithEmailAndPassword : string -> string -> M unit.
Variable auth_createUserWithEmailAndPassword : string -> string -> M unit.
Variable currentUser_updateProfile : string -> M unit.

Definition signInWithEmailPassword (email password : string) : M unit :=
  let e := prepareEmail (Some email) in
  try_catch
    (setNextProvider (AuthProviders_EmailAndPassword decl) ;;
     auth_signInWithEmailAndPassword e password ;;
     Storage_remove env PasswordResetRequestedKey)
    (fun err =>
       setNextProvider (AuthProviders_None decl) ;;
       throw err).

Definition createAccountForEmailAndPassword (email password : string) : M unit :=
  let e := prepareEmail (Some email) in
  logger_log "Creating an account for " ;;
  try_catch
    (setNextProvider (AuthProviders_EmailAndPassword decl) ;;
     auth_createUserWithEmailAndPassword e password)
    (fun err =>
       setNextProvider (AuthProviders_None decl) ;;
       throw err).

(** [this._authUser.photoURL = photoURL]. *)
Definition with_photoURL (url : option string) (snap : AuthUserWithProviders)
  : AuthUserWithProviders :=
  {| user := {| uid := uid (user snap);
                displayName := displayName (user snap);
                email := email (user snap);
                emailVerified := emailVerified (user snap);
                phoneNumber := phoneNumber (user snap);
                photoURL := url |};
     providers := providers snap;
     currentProvider := currentProvider snap |}.

Definition updatePhotoUrl (photoUrl : string) : M unit :=
  (let* fbUser := gets currentUser in
   match fbUser with
   | None => throw (TypeError "Cannot read properties of null")
   | Some _ => currentUser_updateProfile photoUrl
   end) ;;
  (let* fbUser := gets currentUser in
   let* snapshot := gets _authUser in
   match fbUser, snapshot with
   | Some u, Some snap =>
       modify (set_authUser (Some (with_photoURL (fb_photoURL u) snap)))
   | None, _ => throw (TypeError "Cannot read properties of null")
   | Some _, None => throw (TypeError "Cannot set properties of null")
   end) ;;
  logger_log "User photo URL updated:".

End Sdk.

End OtherMethods.

(** The world in which [updatePassword] refreshes the methods list. *)
Definition after_update (password : string) (w : World) : World :=
  snd (logger_log "password updated successfully!!"
         (snd (emit (UserUpdatePassword password) w))).

(** How many calls of a kind a trace holds. *)
Definition count_calls (kind : Call -> bool) (tr : Trace) : nat :=
  List.length (List.filter (fun e => kind (ev_call e)) tr).

Definition is_fetchSignInMethods (c : Call) : bool :=
  match c with
  | FetchSignInMethodsForEmail _ => true
  | _ => false
  end.

Definition is_authSignOut (c : Call) : bool :=
  match c with
  | AuthSignOut => true
  | _ => false
  end.

(** The value [getEmailAuthMethod] keeps for a backend method id. *)
Definition recognized (decl : Declarations) (m : string) : bool :=
  match toAuthProvider decl m with
  | Some p => truthy (Some p)
  | None => false
  end.

(** The session side of the world: everything but the store, the trace
    and the unhandled rejections. *)
Definition same_session (w w' : World) : Prop :=
  _authUser w' = _authUser w
  /\ _initializing w' = _initializing w
  /\ _nextProvider w' = _nextProvider w
  /\ _setPasswordMode w' = _setPasswordMode w
  /\ _firstInit w' = _firstInit w
  /\ currentUser w' = currentUser w.

(** An environment with its store, its handlers and the sending of the
    link replaced. *)
Definition with_faults (store handlers : Trace -> Call -> option JsError)
    (send : option JsError) (base : Env) : Env :=
  {| locationUrl := locationUrl base;
     storageFault := store;
     fetchSignInMethodsForEmail := fetchSignInMethodsForEmail base;
     sendSignInLinkToEmail := fun _ _ _ => send;
     isSignInWithEmailLink := isSignInWithEmailLink base;
     signInWithEmailLink := signInWithEmailLink base;
     signInWithPopup := signInWithPopup base;
     user_updatePassword := user_updatePassword base;
     reauthenticateWithCredential := reauthenticateWithCredential base;
     linkWithCredential := linkWithCredential base;
     credentialWithLink_error := credentialWithLink_error base;
     auth_signOut := auth_signOut base;
     googleSignOut := googleSignOut base;
     handlersFault := handlers |}.

(** * Proofs *)

(** ** Running the monad *)

Lemma doInitialization_run {T} (cb : M T) (w : World) :
  doInitialization cb w =
  let '(r, w1) := cb (set_initializing (_initializing w + 1) w) in
  (r, set_initializing (_initializing w1 - 1) w1).
Proof.
  unfold doInitialization, try_finally, bind, modify, ret. simpl.
  destruct (cb _) as [[a|e] w1]; reflexivity.
Qed.

Lemma doInitialization_Ok {T} (cb : M T) (w w' : World) (a : T) :
  doInitialization cb w = (Ok a, w') ->
  exists w1, cb (set_initializing (_initializing w + 1) w) = (Ok a, w1)
             /\ w' = set_initializing (_initializing w1 - 1) w1.
Proof.
  rewrite doInitialization_run.
  destruct (cb _) as [r w1]. intros H. inversion H. subst. eauto.
Qed.

(** Unfold the primitives down to matches on the oracle's answers. *)
Ltac expose :=
  unfold Storage_getValue, Storage_setValue, Storage_remove, trigger,
    setNextProvider, external, call, logger_log, logger_warn, logger_error,
    emit, initializing, modify, gets, try_catch, bind, ret, throw in *.

(** Split on every answer a hypothesis still depends on. *)
Ltac crunch :=
  repeat (simpl in *; match goal with
  | H : (_, _) = (_, _) |- _ => inversion H; clear H; subst
  | H : Ok _ = Throw _ |- _ => discriminate H
  | H : Throw _ = Ok _ |- _ => discriminate H
  | H : Some _ = None |- _ => discriminate H
  | H : None = Some _ |- _ => discriminate H
  | H : context [match ?x with _ => _ end] |- _ =>
      lazymatch x with
      | context [match _ with _ => _ end] => fail
      | _ => destruct x eqn:?
      end
  | H : context [if ?x then _ else _] |- _ =>
      lazymatch x with
      | context [match _ with _ => _ end] => fail
      | context [if _ then _ else _] => fail
      | _ => destruct x eqn:?
      end
  end).

(** The same on the goal. *)
Ltac crunch_goal :=
  repeat (simpl; match goal with
  | |- context [match ?x with _ => _ end] =>
      lazymatch x with
      | context [match _ with _ => _ end] => fail
      | _ => destruct x eqn:?
      end
  | |- context [if ?x then _ else _] =>
      lazymatch x with
      | context [match _ with _ => _ end] => fail
      | context [if _ then _ else _] => fail
      | _ => destruct x eqn:?
      end
  end).

(** Drop what is known about the oracle's answers once the run is fixed. *)
Ltac forget_answers :=
  repeat match goal with
  | H : storageFault _ _ _ = _ |- _ => clear H
  | H : handlersFault _ _ _ = _ |- _ => clear H
  | H : fetchSignInMethodsForEmail _ _ _ = _ |- _ => clear H
  end.

(** Decide a goal between booleans by cases on the tests it mentions. *)
Ltac bool_atoms :=
  repeat (match goal with
  | |- context [strict_eq ?a ?b] =>
      let E := fresh in destruct (strict_eq a b) eqn:E; rewrite ?E in *
  | |- context [bool_decide ?P] =>
      let E := fresh in destruct (bool_decide P) eqn:E; rewrite ?E in *
  | |- context [truthy ?a] =>
      let E := fresh in destruct (truthy a) eqn:E; rewrite ?E in *
  | |- context [_setPasswordMode ?w] =>
      let E := fresh in destruct (_setPasswordMode w) eqn:E; rewrite ?E in *
  end; simpl in *; try congruence);
  try reflexivity; try congruence.

(** ** Reconciliation: [processAuthUser] under the gate *)

Section Reconciliation.

Context (decl : Declarations) (env : Env).

(** A reconciliation that finds no backend user commits [null] and
    touches neither the hint, the store nor the password-setup flag. *)
Lemma processAuthUser_signed_out (w w' : World) :
  currentUser w = None ->
  processAuthUser decl env w = (Ok tt, w') ->
  _authUser w' = None /\ _nextProvider w' = _nextProvider w
  /\ storage w' = storage w /\ _setPasswordMode w' = _setPasswordMode w
  /\ _initializing w' = _initializing w /\ currentUser w' = None.
Proof.
  intros Hu H.
  unfold processAuthUser, getEmailAuthMethod, createAuthUser, needsCreatePassword in H.
  expose. simpl in H. rewrite Hu in H. crunch; try congruence.
  all: repeat split; auto.
Qed.

Lemma processAuthUser_signed_in (w w' : World) (u : FirebaseUser) :
  currentUser w = Some u ->
  processAuthUser decl env w = (Ok tt, w') ->
  exists snap,
    _authUser w' = Some snap
    /\ currentProvider snap = resolvedProvider w
    /\ _nextProvider w' = (if truthy (_nextProvider w) then None else _nextProvider w)
    /\ storage w' = (if truthy (_nextProvider w)
                     then <[AuthProviderIdKey := default EmptyString (_nextProvider w)]> (storage w)
                     else storage w)
    /\ _setPasswordMode w' =
         _setPasswordMode w
         || (negb (bool_decide (is_Some (_authUser w)))
             && passwordSetup decl snap (storage w' !! PasswordResetRequestedKey))
    /\ _initializing w' = _initializing w /\ currentUser w' = Some u.
Proof.
  intros Hu H.
  unfold processAuthUser, getEmailAuthMethod, createAuthUser, needsCreatePassword in H.
  expose. simpl in H. rewrite Hu in H.
  unfold resolvedProvider, passwordSetup.
  crunch; try congruence.
  all: eexists; split; [reflexivity|]; simpl.
  all: repeat split; try reflexivity; try congruence.
  all: forget_answers; bool_atoms.
Qed.

(** A reconciliation writes no key of the store but the provider id. *)
Lemma processAuthUser_other_keys (w w' : World) (key : string) :
  key <> AuthProviderIdKey ->
  processAuthUser decl env w = (Ok tt, w') ->
  storage w' !! key = storage w !! key.
Proof.
  intros Hkey H. destruct (currentUser w) as [u|] eqn:Hu.
  - eapply processAuthUser_signed_in in H as (_ & _ & _ & _ & Hst & _);
      [|exact Hu].
    rewrite Hst. destruct (truthy (_nextProvider w)); [|reflexivity].
    apply lookup_insert_ne. congruence.
  - eapply processAuthUser_signed_out in H as (_ & _ & Hst & _); [|exact Hu].
    rewrite Hst. reflexivity.
Qed.

Lemma or_else_truthy (v : option string) :
  truthy v = true -> Some (or_else v EmptyString) = v.
Proof.
  unfold or_else. intros H. rewrite H.
  destruct v; [reflexivity | discriminate H].
Qed.

Lemma or_else_falsy (v : option string) :
  truthy v = false -> or_else v EmptyString = EmptyString.
Proof. unfold or_else. intros ->. reflexivity. Qed.

Lemma truthy_default (v : option string) :
  truthy v = true -> Some (default EmptyString v) = v.
Proof. destruct v; [reflexivity | discriminate]. Qed.

(** C1 (as amended).  A reconciliation that completes while the backend
    has a user commits a snapshot whose [currentProvider] is the hint
    when a hint is set, and the hint is then also the persisted provider
    id; with no hint it is the persisted provider id, and the empty
    (unknown) id when nothing or an empty string is persisted.  A
    reconciliation that finds no backend user commits [null] and leaves
    the hint and the store as they are. *)
Theorem reconciliation_currentProvider (w w' : World) :
  doInitialization (processAuthUser decl env) w = (Ok tt, w') ->
  match currentUser w with
  | Some _ =>
      exists snap,
        _authUser w' = Some snap
        /\ (truthy (_nextProvider w) = true ->
            currentProvider snap = _nextProvider w
            /\ storage w' !! AuthProviderIdKey = _nextProvider w)
        /\ (truthy (_nextProvider w) = false ->
            (truthy (storage w !! AuthProviderIdKey) = true ->
             currentProvider snap = storage w !! AuthProviderIdKey)
            /\ (truthy (storage w !! AuthProviderIdKey) = false ->
                currentProvider snap = Some EmptyString)
            /\ storage w' = storage w)
  | None =>
      _authUser w' = None /\ _nextProvider w' = _nextProvider w
      /\ storage w' = storage w
  end.
Proof.
  intros H. apply doInitialization_Ok in H as (w1 & H & ->).
  destruct (currentUser w) as [u|] eqn:Hu.
  - eapply processAuthUser_signed_in in H as (snap & Hs & Hp & _ & Hst & _);
      [|exact Hu].
    exists snap. simpl in *. unfold resolvedProvider in Hp. simpl in Hp.
    split; [exact Hs|]. split.
    + intros Ht. rewrite Ht in Hp, Hst. split; [exact Hp|].
      rewrite Hst, lookup_insert_eq. apply truthy_default, Ht.
    + intros Ht. rewrite Ht in Hp, Hst. repeat split.
      * intros Hk. rewrite Hp. apply or_else_truthy, Hk.
      * intros Hk. rewrite Hp. f_equal. apply or_else_falsy, Hk.
      * exact Hst.
  - eapply processAuthUser_signed_out in H as (Ha & Hn & Hst & _); [|exact Hu].
    simpl in *. auto.
Qed.

(** C2 (as amended).  A reconciliation that completes leaves
    [setPasswordMode] as it was unless the previous snapshot was [null]
    and the new one is not; on that transition it turns the flag on
    exactly when (a) the current provider is known (not empty), is
    neither Google nor DevLogin, and the methods list lacks
    EmailAndPassword, or (b) the current provider is EmailLink and the
    stored password-reset flag is ['true'].  A refresh of a signed-in
    snapshot never changes the flag. *)
Theorem reconciliation_setPasswordMode (w w' : World) :
  doInitialization (processAuthUser decl env) w = (Ok tt, w') ->
  _setPasswordMode w' =
    _setPasswordMode w
    || match _authUser w, _authUser w' with
       | None, Some snap =>
           passwordSetup decl snap (storage w !! PasswordResetRequestedKey)
       | _, _ => false
       end.
Proof.
  intros H. apply doInitialization_Ok in H as (w1 & H & ->).
  destruct (currentUser w) as [u|] eqn:Hu.
  - eapply processAuthUser_signed_in in H as (snap & Hs & _ & _ & Hst & Hm & _);
      [|exact Hu].
    simpl in *. rewrite Hs, Hm.
    assert (Hflag : storage w1 !! PasswordResetRequestedKey
                    = storage w !! PasswordResetRequestedKey).
    { rewrite Hst. destruct (truthy (_nextProvider w)); [|reflexivity].
      apply lookup_insert_ne.
      unfold AuthProviderIdKey, PasswordResetRequestedKey. discriminate. }
    rewrite Hflag. destruct (_authUser w); reflexivity.
  - eapply processAuthUser_signed_out in H as (Ha & _ & _ & Hm & _); [|exact Hu].
    simpl in *. rewrite Ha, Hm.
    destruct (_authUser w); rewrite orb_false_r; reflexivity.
Qed.

(** C9 (as amended).  The hint is one slot: [setNextProvider] overwrites
    whatever it holds; the next reconciliation that completes while the
    backend has a user takes the hint as the snapshot's provider and
    empties the slot, so that a further reconciliation finds no hint and
    resolves the same provider from the store; a reconciliation that
    finds no backend user leaves the slot as it is. *)
Theorem provider_hint_mailbox :
  (forall (p : string) (w : World),
      fst (setNextProvider p w) = Ok tt
      /\ _nextProvider (snd (setNextProvider p w)) = Some p)
  /\ (forall (w w' : World) (u : FirebaseUser),
         currentUser w = Some u ->
         truthy (_nextProvider w) = true ->
         doInitialization (processAuthUser decl env) w = (Ok tt, w') ->
         _nextProvider w' = None
         /\ (exists snap, _authUser w' = Some snap
                          /\ currentProvider snap = _nextProvider w)
         /\ (forall w'' : World,
                doInitialization (processAuthUser decl env) w' = (Ok tt, w'') ->
                _nextProvider w'' = None
                /\ exists snap', _authUser w'' = Some snap'
                                 /\ currentProvider snap' = _nextProvider w))
  /\ (forall (w w' : World),
         currentUser w = None ->
         doInitialization (processAuthUser decl env) w = (Ok tt, w') ->
         _nextProvider w' = _nextProvider w).
Proof.
  split; [|split].
  - intros p w. split; reflexivity.
  - intros w w' u Hu Ht H.
    apply doInitialization_Ok in H as (w1 & H & ->).
    eapply processAuthUser_signed_in in H
      as (snap & Hs & Hp & Hn & Hst & _ & _ & Hu1); [|exact Hu].
    simpl in *. unfold resolvedProvider in Hp. simpl in Hp.
    rewrite Ht in Hp, Hn, Hst. split; [exact Hn|].
    split; [exists snap; auto|].
    intros w'' H2. apply doInitialization_Ok in H2 as (w2 & H2 & ->).
    eapply processAuthUser_signed_in in H2
      as (snap' & Hs' & Hp' & Hn' & _); [|simpl; exact Hu1].
    simpl in *. unfold resolvedProvider in Hp'. simpl in Hp'.
    rewrite Hn in Hp', Hn'. simpl in Hp', Hn'.
    split; [exact Hn'|]. exists snap'. split; [exact Hs'|].
    rewrite Hp', Hst, lookup_insert_eq.
    rewrite <- (truthy_default _ Ht) at 2.
    apply or_else_truthy. rewrite (truthy_default _ Ht). exact Ht.
  - intros w w' Hu H.
    apply doInitialization_Ok in H as (w1 & H & ->).
    eapply processAuthUser_signed_out in H as (_ & Hn & _); [|exact Hu].
    exact Hn.
Qed.

End Reconciliation.

(** *** Reconciliation on concrete inputs *)

(** C1 as stated fails when a hint is set and the backend has no user:
    the reconciliation completes, the committed snapshot is [null] (so
    no [currentProvider] equals the hint) and the hint is not persisted. *)
Lemma hint_not_used_without_backend_user :
  let w := set_nextProvider (Some "google") (constructed ∅ None) in
  let r := doInitialization (processAuthUser exampleDecl (accepting [])) w in
  fst r = Ok tt
  /\ _nextProvider w = Some "google"
  /\ _authUser (snd r) = None
  /\ storage (snd r) !! AuthProviderIdKey = None.
Proof. vm_compute. repeat split. Qed.

Lemma reconciliation_currentProvider_witness :
  let env := accepting ["password"] in
  let reconcile := doInitialization (processAuthUser exampleDecl env) in
  let hinted := set_nextProvider (Some "google") (constructed ∅ (Some alice)) in
  let persisted := constructed {[ AuthProviderIdKey := "emaillink" ]} (Some alice) in
  let unknown := constructed ∅ (Some alice) in
  let signedOut := constructed {[ AuthProviderIdKey := "emaillink" ]} None in
  (exists snap,
      _authUser (snd (reconcile hinted)) = Some snap
      /\ currentProvider snap = Some "google"
      /\ storage (snd (reconcile hinted)) !! AuthProviderIdKey = Some "google")
  /\ (exists snap,
         _authUser (snd (reconcile persisted)) = Some snap
         /\ currentProvider snap = Some "emaillink")
  /\ (exists snap,
         _authUser (snd (reconcile unknown)) = Some snap
         /\ currentProvider snap = Some EmptyString)
  /\ _authUser (snd (reconcile signedOut)) = None.
Proof.
  intros env reconcile hinted persisted unknown signedOut.
  assert (Hrun : forall w, fst (reconcile w) = Ok tt ->
                           reconcile w = (Ok tt, snd (reconcile w))).
  { intros w H. destruct (reconcile w) as [r w']. simpl in H. subst r.
    reflexivity. }
  pose proof (reconciliation_currentProvider exampleDecl env hinted _
                (Hrun hinted ltac:(vm_compute; reflexivity))) as H1.
  pose proof (reconciliation_currentProvider exampleDecl env persisted _
                (Hrun persisted ltac:(vm_compute; reflexivity))) as H2.
  pose proof (reconciliation_currentProvider exampleDecl env unknown _
                (Hrun unknown ltac:(vm_compute; reflexivity))) as H3.
  pose proof (reconciliation_currentProvider exampleDecl env signedOut _
                (Hrun signedOut ltac:(vm_compute; reflexivity))) as H4.
  simpl in H1, H2, H3, H4.
  destruct H1 as (s1 & Hs1 & Hh1 & _).
  destruct H2 as (s2 & Hs2 & _ & Hn2).
  destruct H3 as (s3 & Hs3 & _ & Hn3).
  destruct H4 as (Hs4 & _).
  destruct (Hh1 eq_refl) as [Hp1 Hst1].
  destruct (Hn2 eq_refl) as (Hp2 & _ & _).
  destruct (Hn3 eq_refl) as (_ & Hp3 & _).
  split; [exists s1; repeat split; assumption|].
  split; [exists s2; split; [exact Hs2 | exact (Hp2 eq_refl)]|].
  split; [exists s3; split; [exact Hs3 | exact (Hp3 eq_refl)]|].
  exact Hs4.
Defined.

(** C2 as stated fails for a session whose provider is unknown: nothing
    is hinted or persisted and the account has no sign-in methods.  The
    snapshot goes from [null] to a user, the stated condition holds
    (no EmailAndPassword method, provider neither Google nor DevLogin),
    and password-setup mode stays off. *)
Lemma unknown_provider_skips_password_setup :
  let w := constructed ∅ (Some alice) in
  let r := doInitialization (processAuthUser exampleDecl (accepting [])) w in
  fst r = Ok tt
  /\ _authUser w = None
  /\ (exists snap,
         _authUser (snd r) = Some snap
         /\ providers snap = []
         /\ currentProvider snap = Some EmptyString
         /\ passwordSetup_as_stated exampleDecl snap
              (storage w !! PasswordResetRequestedKey) = true)
  /\ _setPasswordMode (snd r) = false.
Proof.
  cbv zeta. split; [vm_compute; reflexivity|].
  split; [reflexivity|]. split; [|vm_compute; reflexivity].
  eexists. split; [vm_compute; reflexivity|].
  repeat split.
Qed.

Lemma reconciliation_setPasswordMode_witness :
  let w := set_nextProvider (Some "emaillink") (constructed ∅ (Some alice)) in
  let w' := snd (doInitialization
                   (processAuthUser exampleDecl (accepting [])) w) in
  _setPasswordMode w' = true.
Proof.
  intros w w'.
  assert (Hrun : doInitialization (processAuthUser exampleDecl (accepting [])) w
                 = (Ok tt, w')) by (vm_compute; reflexivity).
  rewrite (reconciliation_setPasswordMode _ _ w w' Hrun).
  vm_compute. reflexivity.
Defined.

(** C9 as stated fails in the same situation: the reconciliation that
    follows [setNextProvider] completes and the slot still holds the
    hint. *)
Lemma hint_survives_signed_out_reconciliation :
  let w0 := constructed ∅ None in
  let w := snd (setNextProvider "emaillink" w0) in
  let r := doInitialization (processAuthUser exampleDecl (accepting [])) w in
  fst r = Ok tt /\ _nextProvider (snd r) = Some "emaillink".
Proof. vm_compute. repeat split. Qed.

Lemma provider_hint_mailbox_witness :
  let env := accepting ["password"] in
  let reconcile := doInitialization (processAuthUser exampleDecl env) in
  let w0 := set_nextProvider (Some "password") (constructed ∅ (Some alice)) in
  let w := snd (setNextProvider "google" w0) in
  let w' := snd (reconcile w) in
  let w'' := snd (reconcile w') in
  let v := set_nextProvider (Some "google") (constructed ∅ None) in
  let v' := snd (reconcile v) in
  _nextProvider w = Some "google"
  /\ _nextProvider w' = None
  /\ (exists snap, _authUser w' = Some snap /\ currentProvider snap = Some "google")
  /\ _nextProvider w'' = None
  /\ (exists snap, _authUser w'' = Some snap /\ currentProvider snap = Some "google")
  /\ _nextProvider v' = Some "google".
Proof.
  intros env reconcile w0 w w' w'' v v'.
  destruct (provider_hint_mailbox exampleDecl env) as (Hset & Hconsume & Hkeep).
  split; [apply (Hset "google" w0)|].
  assert (Hrun : reconcile w = (Ok tt, w')) by (vm_compute; reflexivity).
  destruct (Hconsume w w' alice eq_refl eq_refl Hrun) as (Hn & Hsnap & Hnext).
  split; [exact Hn|]. split; [exact Hsnap|].
  assert (Hrun2 : reconcile w' = (Ok tt, w'')) by (vm_compute; reflexivity).
  destruct (Hnext w'' Hrun2) as (Hn2 & Hsnap2).
  split; [exact Hn2|]. split; [exact Hsnap2|].
  assert (Hrun' : reconcile v = (Ok tt, v')) by (vm_compute; reflexivity).
  apply (Hkeep v v' eq_refl Hrun').
Defined.

(** ** The initialization gate *)

Create HintDb gate.

Lemma gated_ret {A} (a : A) : gated (ret a).
Proof.
  intros w r w' H. inversion H; subst.
  repeat split. intros _. exists []. split; [reflexivity | constructor].
Qed.

Lemma gated_throw {A} (e : JsError) : gated (@throw A e).
Proof.
  intros w r w' H. inversion H; subst.
  repeat split. intros _. exists []. split; [reflexivity | constructor].
Qed.

Lemma gated_gets {A} (f : World -> A) : gated (gets f).
Proof.
  intros w r w' H. inversion H; subst.
  repeat split. intros _. exists []. split; [reflexivity | constructor].
Qed.

Lemma gated_modify (f : World -> World) :
  (forall w, _initializing (f w) = _initializing w) ->
  (forall w, _firstInit (f w) = _firstInit w) ->
  (forall w, trace (f w) = trace w) ->
  gated (modify f).
Proof.
  intros Hi Hf Ht w r w' H. inversion H; subst.
  repeat split; auto. intros _. exists []. split; [apply Ht | constructor].
Qed.

Lemma initializing_raised (w : World) :
  0 < _initializing w -> initializing w = true.
Proof.
  intros H. unfold initializing.
  destruct (Z.eqb_spec (_initializing w) 0) as [E|E]; [lia|].
  apply orb_true_r.
Qed.

Lemma gated_emit (c : Call) : gated (emit c).
Proof.
  intros w r w' H. inversion H; subst. simpl.
  repeat split. intros Hpos.
  exists [{| ev_call := c; ev_initializing := initializing w |}].
  split; [reflexivity|].
  constructor; [apply initializing_raised, Hpos | constructor].
Qed.

Lemma gated_call {A} (c : Call) (answer : Trace -> JsError + A) :
  gated (call c answer).
Proof.
  intros w r w' H. unfold call in H.
  assert (Hw : w' = snd (emit c w)) by (destruct (answer _); inversion H; reflexivity).
  destruct (gated_emit c w (Ok tt) (snd (emit c w)) eq_refl) as (Hi & Hf & Ht).
  subst w'. auto.
Qed.

Lemma gated_external (c : Call) (answer : Trace -> option JsError) :
  gated (external c answer).
Proof. apply gated_call. Qed.

Lemma gated_bind {A B} (m : M A) (k : A -> M B) :
  gated m -> (forall a, gated (k a)) -> gated (bind m k).
Proof.
  intros Hm Hk w r w' H. unfold bind in H.
  destruct (m w) as [[a|e] w1] eqn:E.
  - destruct (Hm _ _ _ E) as (Hi & Hf & Ht).
    destruct (Hk a _ _ _ H) as (Hi' & Hf' & Ht').
    split; [congruence|]. split; [congruence|].
    intros Hpos. destruct (Ht Hpos) as (n1 & E1 & F1).
    destruct Ht' as (n2 & E2 & F2); [lia|].
    exists (n2 ++ n1)%list. split.
    + rewrite E2, E1. apply app_assoc.
    + apply Forall_app; auto.
  - inversion H; subst. exact (Hm _ _ _ E).
Qed.

Lemma gated_try_catch {A} (m : M A) (h : JsError -> M A) :
  gated m -> (forall e, gated (h e)) -> gated (try_catch m h).
Proof.
  intros Hm Hh w r w' H. unfold try_catch in H.
  destruct (m w) as [[a|e] w1] eqn:E.
  - inversion H; subst. exact (Hm _ _ _ E).
  - destruct (Hm _ _ _ E) as (Hi & Hf & Ht).
    destruct (Hh e _ _ _ H) as (Hi' & Hf' & Ht').
    split; [congruence|]. split; [congruence|].
    intros Hpos. destruct (Ht Hpos) as (n1 & E1 & F1).
    destruct Ht' as (n2 & E2 & F2); [lia|].
    exists (n2 ++ n1)%list. split.
    + rewrite E2, E1. apply app_assoc.
    + apply Forall_app; auto.
Qed.

#[export] Hint Resolve gated_ret gated_throw gated_gets gated_emit gated_call
  gated_external : gate.
#[export] Hint Extern 1 (gated (modify _)) =>
  apply gated_modify; intros; reflexivity : gate.

(** Walk through a method body: sequence, handler, branch, primitive. *)
Ltac gate_steps :=
  repeat first
    [ apply gated_bind; [|intros]
    | apply gated_try_catch; [|intros]
    | match goal with
      | |- gated (match ?x with _ => _ end) => destruct x
      | |- gated (if ?b then _ else _) => destruct b
      end
    | solve [auto with gate] ].

Section Gate.

Context (decl : Declarations) (env : Env).

Lemma gated_logger_log (msg : string) : gated (logger_log msg).
Proof. apply gated_emit. Qed.

Lemma gated_logger_warn (msg : string) : gated (logger_warn msg).
Proof. apply gated_emit. Qed.

Lemma gated_Storage_getValue (key : string) : gated (Storage_getValue env key).
Proof. unfold Storage_getValue. gate_steps. Qed.

Lemma gated_Storage_setValue (key value : string) :
  gated (Storage_setValue env key value).
Proof. unfold Storage_setValue. gate_steps. Qed.

Lemma gated_Storage_remove (key : string) : gated (Storage_remove env key).
Proof. unfold Storage_remove. gate_steps. Qed.

Lemma gated_trigger (c : Call) : gated (trigger env c).
Proof. unfold trigger. gate_steps. Qed.

Hint Resolve gated_logger_log gated_logger_warn gated_Storage_getValue
  gated_Storage_setValue gated_Storage_remove gated_trigger : gate.

Lemma gated_getEmailAuthMethod (e : option string) :
  gated (getEmailAuthMethod decl env e).
Proof. unfold getEmailAuthMethod. gate_steps. Qed.

Hint Resolve gated_getEmailAuthMethod : gate.

Lemma gated_signOut_guarded : gated (signOut_guarded env).
Proof.
  unfold signOut_guarded, signOut_steps, signOut_failed, servicesSignOut.
  gate_steps.
Qed.

(** [processAuthUser] clears the first-boot flag on entry; the rest of
    it respects the gate. *)
Lemma processAuthUser_gate (w : World) (r : Res unit) (w' : World) :
  processAuthUser decl env w = (r, w') ->
  _initializing w' = _initializing w
  /\ _firstInit w' = false
  /\ (0 < _initializing w ->
      exists new : Trace, trace w' = (new ++ trace w)%list /\ Forall busy new).
Proof.
  unfold processAuthUser. intros H.
  change (bind (modify (set_firstInit false)) ?k w) with (k tt (set_firstInit false w)) in H.
  cbv beta in H.
  match type of H with
  | ?m _ = _ => assert (G : gated m) by gate_steps
  end.
  destruct (G _ _ _ H) as (Hi & Hf & Ht). auto.
Qed.

End Gate.

Section GateTheorem.

Context (decl : Declarations) (env : Env).

(** C7.  [initializing] reads [true] on a freshly constructed
    controller.  [doInitialization] hands back the callback's outcome,
    resolved or rejected, with the counter one below where the callback
    left it, so the increment is always paired with the decrement.  A
    reconciliation or a sign-out run under the gate makes every call
    while [initializing] reads [true], and ends, whether it resolves or
    rejects, with the counter where it started; after the first
    reconciliation [initializing] reads [false]. *)
Theorem initializing_gate :
  (forall st u, initializing (constructed st u) = true)
  /\ (forall (T : Type) (cb : M T) (w : World),
         let inner := cb (set_initializing (_initializing w + 1) w) in
         fst (doInitialization cb w) = fst inner
         /\ _initializing (snd (doInitialization cb w))
            = _initializing (snd inner) - 1)
  /\ (forall (w : World) (r : Res unit) (w' : World),
         0 <= _initializing w ->
         doInitialization (processAuthUser decl env) w = (r, w') ->
         _initializing w' = _initializing w
         /\ (exists new : Trace, trace w' = (new ++ trace w)%list /\ Forall busy new)
         /\ (_initializing w = 0 -> initializing w' = false))
  /\ (forall (w : World) (r : Res unit) (w' : World),
         0 <= _initializing w ->
         doInitialization (signOut_guarded env) w = (r, w') ->
         _initializing w' = _initializing w
         /\ _firstInit w' = _firstInit w
         /\ (exists new : Trace, trace w' = (new ++ trace w)%list /\ Forall busy new)).
Proof.
  split; [reflexivity|]. split; [|split].
  - intros T cb w inner. rewrite doInitialization_run. subst inner.
    destruct (cb _) as [r w1]. split; reflexivity.
  - intros w r w' Hpos H. rewrite doInitialization_run in H.
    destruct (processAuthUser _ _ _) as [r1 w1] eqn:E. inversion H; subst.
    apply processAuthUser_gate in E as (Hi & Hf & Ht). simpl in *.
    split; [lia|]. split; [apply Ht; lia|].
    intros H0. unfold initializing. simpl. rewrite Hf, Hi, H0. reflexivity.
  - intros w r w' Hpos H. rewrite doInitialization_run in H.
    destruct (signOut_guarded _ _) as [r1 w1] eqn:E. inversion H; subst.
    apply gated_signOut_guarded in E as (Hi & Hf & Ht). simpl in *.
    split; [lia|]. split; [exact Hf|]. apply Ht; lia.
Qed.

(** [signOut] followed by what it leaves in flight is the body of the
    source: the log, then [doInitialization] of the callback. *)
Lemma signOut_splits (w : World) :
  (signOut ;; signOut_in_flight env) w
  = (logger_log "Signing out..." ;; doInitialization (signOut_guarded env)) w.
Proof.
  unfold signOut, signOut_in_flight, signOut_guarded, doInitialization,
    try_finally, try_catch, bind, modify, ret, logger_log, emit.
  simpl. destruct (signOut_steps env _) as [[[]|e] w1]; simpl.
  - reflexivity.
  - destruct (signOut_failed e w1) as [[[]|e'] w2]; reflexivity.
Qed.

(** [signOut] itself resolves, in every state, and so does the
    settlement of what it left in flight, whatever happens inside the
    gate. *)
Lemma signOut_resolves (w : World) :
  fst (signOut w) = Ok tt
  /\ fst (settle (signOut_in_flight env) (snd (signOut w))) = Ok tt.
Proof.
  split; [reflexivity|]. unfold settle.
  destruct (signOut_in_flight env _) as [[[]|e] w']; reflexivity.
Qed.

End GateTheorem.

Lemma initializing_gate_witness :
  let env := accepting ["password"] in
  let w := constructed ∅ (Some alice) in
  let w' := snd (doInitialization (processAuthUser exampleDecl env) w) in
  let w'' := snd (doInitialization (signOut_guarded env) w') in
  initializing w = true
  /\ initializing w' = false /\ _initializing w' = 0 /\ Forall busy (trace w')
  /\ _initializing w'' = 0
  /\ (exists new : Trace, trace w'' = (new ++ trace w')%list /\ Forall busy new).
Proof.
  intros env w w' w''.
  destruct (initializing_gate exampleDecl env) as (Hnew & _ & Hrec & Hout).
  split; [apply Hnew|].
  assert (Hpos : 0 <= _initializing w) by (simpl; lia).
  assert (Hrun : doInitialization (processAuthUser exampleDecl env) w
                 = (Ok tt, w')) by (vm_compute; reflexivity).
  destruct (Hrec w (Ok tt) w' Hpos Hrun) as (Hi & (new & Hnew' & Hbusy) & Hdone).
  split; [apply Hdone; reflexivity|]. split; [exact Hi|].
  split; [rewrite Hnew'; simpl; rewrite app_nil_r; exact Hbusy|].
  assert (Hpos' : 0 <= _initializing w') by (rewrite Hi; simpl; lia).
  assert (Hrun' : doInitialization (signOut_guarded env) w' = (Ok tt, w''))
    by (vm_compute; reflexivity).
  destruct (Hout w' (Ok tt) w'' Hpos' Hrun') as (Hi' & _ & Hbusy').
  split; [rewrite Hi'; exact Hi | exact Hbusy'].
Defined.

(** C4 at a failing input: the backend rejects [signOut()] with a
    network error.  The promise [signOut] hands to its caller resolves
    before the backend has been asked.  When the work it left in flight
    settles, the failure is logged and rethrown inside the gate, but it
    reaches no one: the rejection is left unhandled, and the backend
    still has its user. *)
Theorem signOut_does_not_surface_failure :
  let err := failure "auth/network-request-failed" in
  let env := scripted [] true (inr alice) (inr (Some alice)) (fun _ => None)
               None None (Some err) in
  let w := constructed ∅ (Some alice) in
  let r := signOut w in
  let late := settle (signOut_in_flight env) (snd r) in
  fst r = Ok tt
  /\ unhandled (snd r) = []
  /\ fst late = Ok tt
  /\ unhandled (snd late) = [err]
  /\ Logger LogWarn "Failed to sign out!" ∈ map ev_call (trace (snd late))
  /\ currentUser (snd late) = Some alice.
Proof.
  cbv zeta. split; [vm_compute; reflexivity|].
  split; [vm_compute; reflexivity|].
  split; [vm_compute; reflexivity|].
  split; [vm_compute; reflexivity|].
  split; [|vm_compute; reflexivity].
  apply list_elem_of_In. vm_compute. tauto.
Qed.

(** ** [updatePassword] *)

Section UpdatePassword.

Context (decl : Declarations) (env : Env).

(** An activation without [oldPassword] never calls itself: it asks the
    backend once and returns, whatever [self] is. *)
Lemma updatePassword_body_without_old
    (self self' : string -> option string -> M (option AuthResult))
    (password : string) (w : World) :
  updatePassword_body decl env self password None w
  = updatePassword_body decl env self' password None w
  /\ fst (updatePassword_body decl env self password None w) <> Ok None
  /\ (currentUser w <> None ->
      updatePassword_calls
        (trace (snd (updatePassword_body decl env self password None w)))
      = S (updatePassword_calls (trace w))).
Proof.
  split; [reflexivity|].
  unfold updatePassword_body, getEmailAuthMethod, set_providers. expose.
  split.
  - crunch_goal; discriminate.
  - intros Hu. crunch_goal; try congruence; reflexivity.
Qed.

(** One activation returns a result whenever the activation it may call
    does. *)
Lemma updatePassword_body_total
    (self : string -> option string -> M (option AuthResult))
    (password : string) :
  (forall w, fst (self password None w) <> Ok None) ->
  forall (oldPassword : option string) (w : World),
    fst (updatePassword_body decl env self password oldPassword w) <> Ok None.
Proof.
  intros Hretry oldPassword w.
  destruct (updatePassword_body decl env self password oldPassword w)
    as [r w'] eqn:H.
  simpl. intros ->.
  unfold updatePassword_body, getEmailAuthMethod, set_providers,
    authUser_email in H.
  expose. crunch.
  all: match goal with
       | H : _ = (Ok None, _) |- _ =>
           eapply Hretry; rewrite H; reflexivity
       end.
Qed.

(** Two activations are enough: the result is never the out-of-fuel
    marker, and more fuel changes nothing. *)
Lemma updatePassword_total (password : string) (oldPassword : option string)
    (w : World) :
  fst (updatePassword decl env password oldPassword w) <> Ok None.
Proof.
  apply updatePassword_body_total.
  intros w1. apply (updatePassword_body_without_old _ (fun _ _ => ret None)).
Qed.

Lemma updatePassword_fuel_enough (n : nat) (password : string)
    (oldPassword : option string) :
  updatePassword_fuel decl env (S (S n)) password oldPassword
  = updatePassword decl env password oldPassword.
Proof. reflexivity. Qed.

(** C3 (as amended).  [updatePassword] always returns.  With no current
    user the result is [{ result: false, error: InvalidAuthState,
    original: null }].  When the backend rejects the update: with any
    code but ['auth/requires-recent-login'] the error is rethrown as it
    is; with that code and no (or an empty) [oldPassword] the result
    carries [NeedsReauthentication] and the error; with an [oldPassword]
    and a session snapshot the controller re-authenticates with the
    snapshot's email and [oldPassword], and then a rejection with
    ['auth/wrong-password'] gives [WrongPassword], any other rejection
    [InvalidAuthState], each with the re-authentication error and
    neither asking the backend to update again, while a success runs
    [updatePassword] once more without [oldPassword], which asks the
    backend exactly once more. *)
Theorem updatePassword_outcomes (password : string)
    (oldPassword : option string) (w : World) :
  let run := updatePassword decl env password oldPassword w in
  fst run <> Ok None
  /\ (currentUser w = None ->
      run = (Ok (Some {| result := false; error := Some InvalidAuthState;
                         original := None |}), w))
  /\ (forall (fbUser : FirebaseUser) (err : JsError),
         currentUser w = Some fbUser ->
         user_updatePassword env (trace w) password = Some err ->
         (err_code err <> Some "auth/requires-recent-login" ->
          run = (Throw err, after_failed_update password w))
         /\ (err_code err = Some "auth/requires-recent-login" ->
             truthy oldPassword = false ->
             run = (Ok (Some {| result := false;
                                error := Some NeedsReauthentication;
                                original := Some err |}),
                    after_failed_update password w))
         /\ (forall snap : AuthUserWithProviders,
                err_code err = Some "auth/requires-recent-login" ->
                truthy oldPassword = true ->
                _authUser w = Some snap ->
                let cred := credential (email (user snap))
                              (default EmptyString oldPassword) in
                let w1 := before_reauthentication password w in
                let w2 := snd (emit (ReauthenticateWithCredential cred) w1) in
                (forall err2 : JsError,
                    reauthenticateWithCredential env (trace w1) cred = Some err2 ->
                    (err_code err2 = Some "auth/wrong-password" ->
                     fst run
                     = Ok (Some {| result := false; error := Some WrongPassword;
                                   original := Some err2 |}))
                    /\ (err_code err2 <> Some "auth/wrong-password" ->
                        fst run
                        = Ok (Some {| result := false;
                                      error := Some InvalidAuthState;
                                      original := Some err2 |}))
                    /\ updatePassword_calls (trace (snd run))
                       = S (updatePassword_calls (trace w)))
                /\ (reauthenticateWithCredential env (trace w1) cred = None ->
                    run = updatePassword decl env password None w2
                    /\ updatePassword_calls (trace (snd run))
                       = S (S (updatePassword_calls (trace w)))))).
Proof.
  intros run. split; [apply updatePassword_total|].
  subst run. unfold updatePassword.
  change (updatePassword_fuel decl env 2 password oldPassword)
    with (updatePassword_body decl env (updatePassword_fuel decl env 1)
            password oldPassword).
  remember (updatePassword_fuel decl env 1) as self eqn:Hself.
  split.
  - intros Hu. unfold updatePassword_body. expose. rewrite Hu. reflexivity.
  - intros fbUser err Hu Herr.
    unfold updatePassword_body, after_failed_update, before_reauthentication,
      authUser_email.
    expose. rewrite Hu. simpl. rewrite Herr. simpl.
    split; [|split].
    + intros Hcode.
      assert (E : strict_eq (err_code err) (Some "auth/requires-recent-login") = false)
        by (apply bool_decide_eq_false; exact Hcode).
      rewrite E. reflexivity.
    + intros Hcode Hold.
      assert (E : strict_eq (err_code err) (Some "auth/requires-recent-login") = true)
        by (apply bool_decide_eq_true; exact Hcode).
      rewrite E, Hold. reflexivity.
    + intros snap Hcode Hold Hsnap.
      assert (E : strict_eq (err_code err) (Some "auth/requires-recent-login") = true)
        by (apply bool_decide_eq_true; exact Hcode).
      rewrite E, Hold. simpl. rewrite Hsnap. simpl.
      split.
      * intros err2 Hre. unfold initializing in Hre. simpl in Hre.
        rewrite Hre. simpl. split; [|split; [|reflexivity]].
        -- intros Hwrong.
           assert (E2 : strict_eq (err_code err2) (Some "auth/wrong-password")
                        = true)
             by (apply bool_decide_eq_true; exact Hwrong).
           rewrite E2. reflexivity.
        -- intros Hwrong.
           assert (E2 : strict_eq (err_code err2) (Some "auth/wrong-password")
                        = false)
             by (apply bool_decide_eq_false; exact Hwrong).
           rewrite E2. reflexivity.
      * intros Hre. unfold initializing in Hre. simpl in Hre.
        rewrite Hre. simpl.
        match goal with
        | |- self password None ?w2 = _ /\ _ =>
            destruct (updatePassword_body_without_old
                        (updatePassword_fuel decl env 0)
                        (updatePassword_fuel decl env 1) password w2)
              as (Hsame & _ & Hcount)
        end.
        subst self. split.
        -- exact Hsame.
        -- change (updatePassword_fuel decl env 1 password None)
             with (updatePassword_body decl env (updatePassword_fuel decl env 0)
                     password None).
           rewrite Hcount; [reflexivity|]. simpl. congruence.
Qed.

(** X19.  The re-authentication branch reads the email off the session
    snapshot ([this.authUser.email]) without testing the snapshot.
    With a backend user but no snapshot, a ['auth/requires-recent-login']
    rejection and an [oldPassword] supplied, [updatePassword] rejects
    with a [TypeError]: it neither re-authenticates nor returns a
    result object, and the world is the one left by the failed update
    and its log line. *)
Theorem updatePassword_without_snapshot (password : string)
    (oldPassword : option string) (w : World) (fbUser : FirebaseUser)
    (err : JsError) :
  currentUser w = Some fbUser ->
  _authUser w = None ->
  user_updatePassword env (trace w) password = Some err ->
  err_code err = Some "auth/requires-recent-login" ->
  truthy oldPassword = true ->
  updatePassword decl env password oldPassword w
  = (Throw (TypeError "Cannot read properties of null"),
     after_failed_update password w).
Proof.
  intros Hu Hsnap Herr Hcode Hold.
  unfold updatePassword.
  change (updatePassword_fuel decl env 2 password oldPassword)
    with (updatePassword_body decl env (updatePassword_fuel decl env 1)
            password oldPassword).
  unfold updatePassword_body, after_failed_update, authUser_email.
  expose. rewrite Hu. simpl. rewrite Herr. simpl.
  assert (E : strict_eq (err_code err) (Some "auth/requires-recent-login") = true)
    by (apply bool_decide_eq_true; exact Hcode).
  rewrite E, Hold. simpl. rewrite Hsnap. reflexivity.
Qed.

End UpdatePassword.

(** C3 as stated fails for a controller whose backend has a user while
    no snapshot has been committed, as right after construction: the
    backend asks for a recent login, an [oldPassword] is supplied (a
    wrong one, says the backend), and [updatePassword] rejects with a
    [TypeError] without having asked the backend to re-authenticate. *)
Lemma updatePassword_throws_without_snapshot :
  let stale := failure "auth/requires-recent-login" in
  let env := scripted ["password"] true (inr alice) (inr (Some alice))
               (fun _ => Some stale) (Some (failure "auth/wrong-password"))
               None None in
  let w := constructed ∅ (Some alice) in
  let run := updatePassword exampleDecl env "new-secret" (Some "wrong-secret") w in
  currentUser w = Some alice
  /\ _authUser w = None
  /\ fst run = Throw (TypeError "Cannot read properties of null")
  /\ map ev_call (trace (snd run))
     = [Logger LogLog "failed to update password:";
        UserUpdatePassword "new-secret"].
Proof. vm_compute. repeat split. Qed.

Lemma updatePassword_without_snapshot_witness :
  let stale := failure "auth/requires-recent-login" in
  let env := scripted ["password"] true (inr alice) (inr (Some alice))
               (fun _ => Some stale) None None None in
  let w := constructed ∅ (Some alice) in
  let run := updatePassword exampleDecl env "new-secret" (Some "old-secret") w in
  fst run = Throw (TypeError "Cannot read properties of null")
  /\ map ev_call (trace (snd run))
     = [Logger LogLog "failed to update password:";
        UserUpdatePassword "new-secret"]
  /\ unhandled (snd run) = [].
Proof.
  intros stale env w run. unfold run.
  rewrite (updatePassword_without_snapshot exampleDecl env "new-secret"
             (Some "old-secret") w alice stale eq_refl eq_refl eq_refl
             eq_refl eq_refl).
  repeat split.
Defined.

Lemma updatePassword_outcomes_witness :
  let stale := failure "auth/requires-recent-login" in
  let weak := failure "auth/weak-password" in
  let wrong := failure "auth/wrong-password" in
  let mismatch := failure "auth/user-mismatch" in
  let reauthenticated (tr : Trace) :=
    existsb (fun e => match ev_call e with
                      | ReauthenticateWithCredential _ => true
                      | _ => false
                      end) tr in
  let backend update reauth :=
    scripted ["password"] true (inr alice) (inr (Some alice)) update reauth
      None None in
  let recovering :=
    backend (fun tr => if reauthenticated tr then None else Some stale) None in
  let signedIn :=
    snd (doInitialization (processAuthUser exampleDecl recovering)
           (constructed ∅ (Some alice))) in
  let run env old := updatePassword exampleDecl env "new-secret" old signedIn in
  (fst (run recovering (Some "old-secret"))
   = Ok (Some {| result := true; error := None; original := None |})
   /\ updatePassword_calls (trace (snd (run recovering (Some "old-secret"))))
      = 2%nat)
  /\ (fst (run (backend (fun _ => Some stale) (Some wrong)) (Some "old-secret"))
      = Ok (Some {| result := false; error := Some WrongPassword;
                    original := Some wrong |})
      /\ updatePassword_calls
           (trace (snd (run (backend (fun _ => Some stale) (Some wrong))
                          (Some "old-secret")))) = 1%nat)
  /\ fst (run (backend (fun _ => Some stale) (Some mismatch)) (Some "old-secret"))
     = Ok (Some {| result := false; error := Some InvalidAuthState;
                   original := Some mismatch |})
  /\ fst (run (backend (fun _ => Some stale) None) None)
     = Ok (Some {| result := false; error := Some NeedsReauthentication;
                   original := Some stale |})
  /\ fst (run (backend (fun _ => Some weak) None) (Some "old-secret")) = Throw weak
  /\ fst (updatePassword exampleDecl recovering "new-secret" (Some "old-secret")
            (constructed ∅ None))
     = Ok (Some {| result := false; error := Some InvalidAuthState;
                   original := None |}).
Proof.
  intros stale weak wrong mismatch reauthenticated backend recovering signedIn run.
  assert (Hsnap : exists snap, _authUser signedIn = Some snap)
    by (eexists; vm_compute; reflexivity).
  destruct Hsnap as [snap Hsnap].
  split; [|split; [|split; [|split; [|split]]]].
  - destruct (updatePassword_outcomes exampleDecl recovering "new-secret"
                (Some "old-secret") signedIn) as (_ & _ & H).
    destruct (H alice stale ltac:(vm_compute; reflexivity)
                ltac:(vm_compute; reflexivity)) as (_ & _ & Hold).
    destruct (Hold snap eq_refl eq_refl Hsnap) as (_ & Hretry).
    destruct Hretry as (Hrun & Hcount); [vm_compute; reflexivity|].
    split; [vm_compute; reflexivity | exact Hcount].
  - destruct (updatePassword_outcomes exampleDecl
                (backend (fun _ => Some stale) (Some wrong)) "new-secret"
                (Some "old-secret") signedIn) as (_ & _ & H).
    destruct (H alice stale ltac:(vm_compute; reflexivity) eq_refl)
      as (_ & _ & Hold).
    destruct (Hold snap eq_refl eq_refl Hsnap) as (Hfail & _).
    destruct (Hfail wrong eq_refl) as (Hwrong & _ & Hcount).
    split; [exact (Hwrong eq_refl) | exact Hcount].
  - destruct (updatePassword_outcomes exampleDecl
                (backend (fun _ => Some stale) (Some mismatch)) "new-secret"
                (Some "old-secret") signedIn) as (_ & _ & H).
    destruct (H alice stale ltac:(vm_compute; reflexivity) eq_refl)
      as (_ & _ & Hold).
    destruct (Hold snap eq_refl eq_refl Hsnap) as (Hfail & _).
    destruct (Hfail mismatch eq_refl) as (_ & Hother & _).
    apply Hother. discriminate.
  - destruct (updatePassword_outcomes exampleDecl
                (backend (fun _ => Some stale) None) "new-secret"
                None signedIn) as (_ & _ & H).
    destruct (H alice stale ltac:(vm_compute; reflexivity) eq_refl)
      as (_ & Hnone & _).
    unfold run. rewrite (Hnone eq_refl eq_refl). reflexivity.
  - destruct (updatePassword_outcomes exampleDecl
                (backend (fun _ => Some weak) None) "new-secret"
                (Some "old-secret") signedIn) as (_ & _ & H).
    destruct (H alice weak ltac:(vm_compute; reflexivity) eq_refl)
      as (Hother & _).
    unfold run. rewrite Hother; [reflexivity | discriminate].
  - destruct (updatePassword_outcomes exampleDecl recovering "new-secret"
                (Some "old-secret") (constructed ∅ None)) as (_ & Hnouser & _).
    rewrite (Hnouser eq_refl). reflexivity.
Defined.

(** ** Normalizing an email address *)

Lemma is_space_to_lower (c : ascii) : is_space (to_lower c) = is_space c.
Proof. destruct c as [[] [] [] [] [] [] [] []]; reflexivity. Qed.

Lemma to_lower_idempotent (c : ascii) : to_lower (to_lower c) = to_lower c.
Proof. destruct c as [[] [] [] [] [] [] [] []]; reflexivity. Qed.

Lemma toLowerCase_idempotent (s : string) :
  toLowerCase (toLowerCase s) = toLowerCase s.
Proof.
  induction s as [|c s IH]; simpl; [reflexivity|].
  rewrite to_lower_idempotent, IH. reflexivity.
Qed.

Lemma trimStart_toLowerCase (s : string) :
  trimStart (toLowerCase s) = toLowerCase (trimStart s).
Proof.
  induction s as [|c s IH]; simpl; [reflexivity|].
  rewrite is_space_to_lower. destruct (is_space c); [exact IH | reflexivity].
Qed.

Lemma trimEnd_toLowerCase (s : string) :
  trimEnd (toLowerCase s) = toLowerCase (trimEnd s).
Proof.
  induction s as [|c s IH]; simpl; [reflexivity|].
  rewrite IH, is_space_to_lower.
  destruct (trimEnd s); simpl; [destruct (is_space c)|]; reflexivity.
Qed.

Lemma trimEnd_idempotent (s : string) : trimEnd (trimEnd s) = trimEnd s.
Proof.
  induction s as [|c s IH]; simpl; [reflexivity|].
  destruct (trimEnd s) as [|d r] eqn:E.
  - destruct (is_space c) eqn:Ec; simpl; [reflexivity|]. rewrite Ec. reflexivity.
  - change (trimEnd (String c (String d r))) with
      (match trimEnd (String d r) with
       | EmptyString => if is_space c then EmptyString else String c EmptyString
       | x => String c x
       end).
    rewrite IH. reflexivity.
Qed.

Lemma trimStart_no_leading_space (s : string) : no_leading_space (trimStart s).
Proof.
  induction s as [|c s IH]; simpl; [exact I|].
  destruct (is_space c) eqn:E; [exact IH | exact E].
Qed.

Lemma trimEnd_no_leading_space (s : string) :
  no_leading_space s -> no_leading_space (trimEnd s).
Proof.
  destruct s as [|c s]; simpl; [trivial|]. intros E.
  destruct (trimEnd s); [rewrite E|]; exact E.
Qed.

Lemma trimStart_fixed (s : string) : no_leading_space s -> trimStart s = s.
Proof. destruct s as [|c s]; simpl; [trivial|]. intros ->. reflexivity. Qed.

(** [prepareEmail] of a prepared address gives the address back. *)
Lemma prepareEmail_idempotent (e : option string) :
  prepareEmail (Some (prepareEmail e)) = prepareEmail e.
Proof.
  destruct e as [s|]; [|reflexivity]. unfold prepareEmail.
  rewrite trimStart_toLowerCase, trimEnd_toLowerCase, toLowerCase_idempotent.
  rewrite (trimStart_fixed (trimEnd (trimStart s))).
  - rewrite trimEnd_idempotent. reflexivity.
  - apply trimEnd_no_leading_space, trimStart_no_leading_space.
Qed.

(** ** The magic link *)

Arguments prepareEmail email : simpl never.

Section MagicLink.

Context (decl : Declarations) (env : Env).

(** C5 (as amended).  [processEmailLink] first reads the pending email
    from the store, before the [try] and before it looks at the URL:
    when that read rejects, [processEmailLink] rejects with the store's
    error and nothing but the trace changed.  Once the read has
    resolved: when the backend does not recognize the current URL as a
    sign-in link the result is [invalidLink] and nothing but the trace
    changed; otherwise, when no pending email is persisted (or a blank
    one), the result is [noemail], again with no state change; otherwise
    the method never rejects, and whenever it does not succeed it has
    set the hint to [None] and returns the failure with the pending
    email as [prepareEmail] normalizes it; in particular so when the
    backend rejects the redemption. *)
Theorem processEmailLink_failures (w : World) :
  let run := processEmailLink decl env w in
  let pending := storage w !! UserSignInEmailStorageKey in
  let url := locationUrl env in
  let read :=
    storageFault env (trace w) (StorageGetValue UserSignInEmailStorageKey) in
  (forall err, read = Some err ->
               fst run = Throw err /\ same_state w (snd run))
  /\ (read = None ->
      isSignInWithEmailLink env url = false ->
      fst run = Ok {| el_result := false; el_error := Some invalidLink;
                      el_email := None |}
      /\ same_state w (snd run))
  /\ (read = None ->
      isSignInWithEmailLink env url = true ->
      truthy (Some (prepareEmail pending)) = false ->
      fst run = Ok {| el_result := false; el_error := Some noemail;
                      el_email := None |}
      /\ same_state w (snd run))
  /\ (read = None ->
      isSignInWithEmailLink env url = true ->
      truthy (Some (prepareEmail pending)) = true ->
      (exists r, fst run = Ok r
                 /\ (r = {| el_result := true; el_error := None; el_email := None |}
                     \/ (exists err,
                            r = {| el_result := false;
                                   el_error := Some (linkFailure err);
                                   el_email := Some (prepareEmail pending) |})
                        /\ _nextProvider (snd run) = Some (AuthProviders_None decl)))
      /\ (forall err,
             signInWithEmailLink env (trace (before_redemption decl w))
               (prepareEmail pending) url = inl err ->
             fst run = Ok {| el_result := false;
                             el_error := Some (linkFailure err);
                             el_email := Some (prepareEmail pending) |}
             /\ _nextProvider (snd run) = Some (AuthProviders_None decl)
             /\ storage (snd run) = storage w)).
Proof.
  intros run pending url read. subst run pending url read.
  split; [|split; [|split]].
  - intros err Hread. unfold processEmailLink. expose. simpl.
    rewrite Hread. simpl. split; [reflexivity|]. repeat split.
  - intros Hread Hlink. unfold processEmailLink. expose. simpl.
    rewrite Hread. simpl. rewrite Hlink. simpl.
    split; [reflexivity|]. repeat split.
  - intros Hread Hlink Hnone.
    destruct (prepareEmail (storage w !! UserSignInEmailStorageKey))
      as [|c e] eqn:Ep; [|discriminate Hnone].
    unfold processEmailLink. expose. simpl.
    rewrite Hread. simpl. rewrite Hlink, Ep. simpl.
    split; [reflexivity|]. repeat split.
  - intros Hread Hlink Hemail.
    destruct (prepareEmail (storage w !! UserSignInEmailStorageKey))
      as [|c e] eqn:Ep; [discriminate Hemail|].
    split.
    + destruct (processEmailLink decl env w) as [r w'] eqn:H.
      unfold processEmailLink in H. expose. simpl in H.
      rewrite Hread in H. simpl in H. rewrite Hlink, Ep in H. simpl in H.
      crunch; eexists; (split; [reflexivity|]); eauto.
    + intros err Herr. unfold before_redemption in Herr.
      unfold processEmailLink. expose. simpl in *.
      rewrite Hread. simpl. rewrite Hlink, Ep. simpl.
      rewrite Herr. simpl. repeat split.
Qed.

Section Accepting.

Hypothesis store_ok : forall tr c, storageFault env tr c = None.
Hypothesis handlers_ok : forall tr c, handlersFault env tr c = None.
Hypothesis send_ok : forall tr e u, sendSignInLinkToEmail env tr e u = None.
Hypothesis link_recognized : isSignInWithEmailLink env (locationUrl env) = true.
Hypothesis redeem_ok :
  forall tr e u, exists fbUser, signInWithEmailLink env tr e u = inr fbUser.

(** The request phase leaves the prepared address and the reason in the
    store. *)
Lemma sendMagicLinkRequest_accepted (email : string) (reason : option string)
    (w : World) :
  exists w1,
    sendMagicLinkRequest env email reason w = (Ok tt, w1)
    /\ storage w1 !! UserSignInEmailStorageKey = Some (prepareEmail (Some email))
    /\ storage w1 !! MagicLinkReasonKey = Some (or_else reason "empty")
    /\ storage w1 !! PasswordResetRequestedKey = None.
Proof.
  unfold sendMagicLinkRequest. expose. simpl.
  do 3 (rewrite store_ok; simpl). rewrite send_ok. simpl.
  eexists. split; [reflexivity|]. simpl. repeat split.
  - rewrite lookup_delete_ne, lookup_insert_ne by discriminate.
    apply lookup_insert_eq.
  - rewrite lookup_delete_ne by discriminate. apply lookup_insert_eq.
  - apply lookup_delete_eq.
Qed.

(** The redemption phase for a pending, prepared address. *)
Lemma processEmailLink_accepted (e : string) (w : World) :
  storage w !! UserSignInEmailStorageKey = Some e ->
  prepareEmail (Some e) = e ->
  e <> EmptyString ->
  let run := processEmailLink decl env w in
  fst run = Ok {| el_result := true; el_error := None; el_email := None |}
  /\ storage (snd run) !! UserSignInEmailStorageKey = None
  /\ storage (snd run) !! MagicLinkReasonKey = None
  /\ SignInWithEmailLink e (locationUrl env) ∈ map ev_call (trace (snd run)).
Proof.
  intros Hpending Hprepared Hne run. subst run.
  destruct e as [|c e]; [congruence|].
  unfold processEmailLink. expose. simpl.
  rewrite store_ok. simpl. rewrite link_recognized, Hpending, Hprepared. simpl.
  match goal with
  | |- context [signInWithEmailLink env ?tr ?a ?u] =>
      destruct (redeem_ok tr a u) as [fbUser Hu]; rewrite Hu
  end.
  simpl. rewrite store_ok. simpl.
  match goal with
  | |- context [if ?b then _ else _] => destruct b
  end; simpl; [rewrite store_ok; simpl|];
  rewrite store_ok; simpl; rewrite store_ok; simpl;
  rewrite handlers_ok; simpl.
  all: repeat split.
  all: try apply lookup_delete_eq.
  all: try (rewrite lookup_delete_ne by discriminate; apply lookup_delete_eq).
  all: apply list_elem_of_In; simpl; tauto.
Qed.

End Accepting.

(** C6.  With a store and event handlers that do not fail, a backend
    that accepts sending the link and redeeming it, and an address that
    is not blank, the request phase followed by the redemption phase
    succeeds, the link is redeemed for the address the request
    normalized, and neither the pending email nor the pending reason is
    left in the store. *)
Theorem magic_link_round_trip (email : string) (reason : option string)
    (w : World) :
  (forall tr c, storageFault env tr c = None) ->
  (forall tr c, handlersFault env tr c = None) ->
  (forall tr e u, sendSignInLinkToEmail env tr e u = None) ->
  isSignInWithEmailLink env (locationUrl env) = true ->
  (forall tr e u, exists fbUser, signInWithEmailLink env tr e u = inr fbUser) ->
  prepareEmail (Some email) <> EmptyString ->
  let run := (sendMagicLinkRequest env email reason ;;
              processEmailLink decl env) w in
  fst run = Ok {| el_result := true; el_error := None; el_email := None |}
  /\ storage (snd run) !! UserSignInEmailStorageKey = None
  /\ storage (snd run) !! MagicLinkReasonKey = None
  /\ SignInWithEmailLink (prepareEmail (Some email)) (locationUrl env)
       ∈ map ev_call (trace (snd run)).
Proof.
  intros Hst Hh Hsend Hlink Hredeem Hemail run. subst run.
  destruct (sendMagicLinkRequest_accepted Hst Hsend email reason w)
    as (w1 & Hreq & Hpending & _).
  assert (E : (sendMagicLinkRequest env email reason ;;
               processEmailLink decl env) w = processEmailLink decl env w1)
    by (unfold bind; rewrite Hreq; reflexivity).
  rewrite E.
  apply (processEmailLink_accepted Hst Hh Hlink Hredeem _ w1 Hpending).
  - apply prepareEmail_idempotent.
  - exact Hemail.
Qed.

End MagicLink.

(** C5 as stated fails when the store rejects the read of the pending
    email: the URL is not a sign-in link, yet [processEmailLink] rejects
    with the store's error instead of returning [invalidLink].  And
    after a request for [" Foo@Bar.com "] whose redemption the backend
    rejects, the email returned with the failure is ["foo@bar.com"]. *)
Lemma processEmailLink_rejects_when_read_fails :
  let lost := failure "storage/unavailable" in
  let rejected := failure "auth/invalid-action-code" in
  let unrecognized := scripted [] false (inr alice) (inr None) (fun _ => None)
                        None None None in
  let unreadable := with_faults (fun _ _ => Some lost) (fun _ _ => None) None
                      unrecognized in
  let rejecting := scripted [] true (inl rejected) (inr None) (fun _ => None)
                     None None None in
  let requested :=
    snd (sendMagicLinkRequest rejecting " Foo@Bar.com " None
           (constructed ∅ None)) in
  isSignInWithEmailLink unreadable (locationUrl unreadable) = false
  /\ fst (processEmailLink exampleDecl unreadable (constructed ∅ None))
     = Throw lost
  /\ fst (processEmailLink exampleDecl rejecting requested)
     = Ok {| el_result := false; el_error := Some (linkFailure rejected);
             el_email := Some "foo@bar.com" |}.
Proof. vm_compute. repeat split. Qed.

Lemma processEmailLink_failures_witness :
  let rejected := failure "auth/invalid-action-code" in
  let lost := failure "storage/unavailable" in
  let pending : gmap string string :=
    {[ UserSignInEmailStorageKey := "foo@bar.com" ]} in
  let unrecognized := scripted [] false (inr alice) (inr None) (fun _ => None)
                        None None None in
  let unreadable := with_faults (fun _ _ => Some lost) (fun _ _ => None) None
                      unrecognized in
  let rejecting := scripted [] true (inl rejected) (inr None) (fun _ => None)
                     None None None in
  fst (processEmailLink exampleDecl unreadable (constructed pending None))
  = Throw lost
  /\ fst (processEmailLink exampleDecl unrecognized (constructed pending None))
     = Ok {| el_result := false; el_error := Some invalidLink; el_email := None |}
  /\ fst (processEmailLink exampleDecl rejecting (constructed ∅ None))
     = Ok {| el_result := false; el_error := Some noemail; el_email := None |}
  /\ fst (processEmailLink exampleDecl rejecting (constructed pending None))
     = Ok {| el_result := false; el_error := Some (linkFailure rejected);
             el_email := Some "foo@bar.com" |}
  /\ _nextProvider
       (snd (processEmailLink exampleDecl rejecting (constructed pending None)))
     = Some EmptyString.
Proof.
  intros rejected lost pending unrecognized unreadable rejecting.
  destruct (processEmailLink_failures exampleDecl unreadable
              (constructed pending None)) as (Hread & _).
  destruct (processEmailLink_failures exampleDecl unrecognized
              (constructed pending None)) as (_ & Hinvalid & _).
  destruct (processEmailLink_failures exampleDecl rejecting
              (constructed ∅ None)) as (_ & _ & Hnone & _).
  destruct (processEmailLink_failures exampleDecl rejecting
              (constructed pending None)) as (_ & _ & _ & Hfail).
  destruct (Hread lost eq_refl) as [H0 _].
  destruct (Hinvalid eq_refl eq_refl) as [H1 _].
  destruct (Hnone eq_refl eq_refl ltac:(vm_compute; reflexivity)) as [H2 _].
  destruct (Hfail eq_refl eq_refl ltac:(vm_compute; reflexivity))
    as [_ Hbackend].
  destruct (Hbackend rejected ltac:(vm_compute; reflexivity)) as (H3 & H4 & _).
  split; [exact H0|]. split; [exact H1|]. split; [exact H2|].
  split; [exact H3 | exact H4].
Defined.

Lemma magic_link_round_trip_witness :
  let run := (sendMagicLinkRequest (accepting []) " Foo@Bar.com " (Some "password") ;;
              processEmailLink exampleDecl (accepting []))
               (constructed ∅ None) in
  fst run = Ok {| el_result := true; el_error := None; el_email := None |}
  /\ storage (snd run) !! UserSignInEmailStorageKey = None
  /\ storage (snd run) !! MagicLinkReasonKey = None
  /\ SignInWithEmailLink (prepareEmail (Some " Foo@Bar.com "))
       (locationUrl (accepting [])) ∈ map ev_call (trace (snd run)).
Proof.
  apply (magic_link_round_trip exampleDecl (accepting []) " Foo@Bar.com "
           (Some "password") (constructed ∅ None)).
  - intros tr c. reflexivity.
  - intros tr c. reflexivity.
  - intros tr e u. reflexivity.
  - reflexivity.
  - intros tr e u. exists alice. reflexivity.
  - vm_compute. discriminate.
Defined.

(** ** Google *)

Section Google.

Context (decl : Declarations) (env : Env).



End Google.




(** * Further properties of the controller *)

(** ** Sign-in methods of an account *)

Section SignInMethods.

Context (decl : Declarations) (env : Env).

(** What [.map(...).filter(m => m)] keeps. *)
Lemma mapMethods_elem (methods : list string) (p : string) :
  p ∈ mapMethods decl methods <->
  p <> EmptyString /\ exists m, m ∈ methods /\ toAuthProvider decl m = Some p.
Proof.
  unfold mapMethods. rewrite list_elem_of_omap. split.
  - intros (m & Hm & Hf). destruct (toAuthProvider decl m) as [q|] eqn:E; [|discriminate].
    destruct q as [|c q]; simpl in Hf; [discriminate|]. inversion Hf; subst.
    split; [discriminate|]. eauto.
  - intros (Hne & m & Hm & Hf). exists m. split; [exact Hm|]. rewrite Hf.
    destruct p; [congruence | reflexivity].
Qed.

Lemma toAuthProvider_known (m p : string) :
  toAuthProvider decl m = Some p ->
  p = AuthProviders_EmailAndPassword decl
  \/ p = AuthProviders_EmailLink decl
  \/ p = AuthProviders_Google decl.
Proof.
  unfold toAuthProvider. intros E.
  repeat case_bool_decide; inversion E; auto.
Qed.

Lemma mapMethods_length (methods : list string) :
  (List.length (mapMethods decl methods) <= List.length methods)%nat.
Proof.
  unfold mapMethods. induction methods as [|m ms IH]; [simpl; lia|].
  rewrite (omap_app _ [m] ms), length_app. simpl.
  destruct (toAuthProvider decl m) as [[|c q]|]; simpl in *; lia.
Qed.

(** A run of [getEmailAuthMethod] that resolves. *)
Lemma getEmailAuthMethod_Ok (email : option string) (w w' : World)
    (ps : list string) :
  getEmailAuthMethod decl env email w = (Ok ps, w') ->
  exists methods,
    ps = mapMethods decl methods
    /\ (truthy email = true ->
        fetchSignInMethodsForEmail env (trace w) (default EmptyString email)
        = inr methods)
    /\ (truthy email = false ->
        methods = [] /\ w' = snd (logger_log "No auth methods for email" w))
    /\ same_state w w'
    /\ updatePassword_calls (trace w') = updatePassword_calls (trace w).
Proof.
  intros H. unfold getEmailAuthMethod in H. expose.
  destruct (truthy email) eqn:Et; simpl in H.
  - destruct (fetchSignInMethodsForEmail _ _ _) as [e|methods] eqn:Ef;
      simpl in H; [discriminate|].
    exists methods.
    destruct (bool_decide _); simpl in H; inversion H; subst;
      (split; [reflexivity|]); (split; [auto|]);
      (split; [discriminate|]); repeat split.
  - exists []. simpl in H. inversion H; subst.
    split; [reflexivity|]. split; [discriminate|].
    split; [auto|]. repeat split.
Qed.

(** X1.  [getEmailAuthMethod] changes nothing but the trace, and what it
    returns holds only non-empty members of EmailAndPassword, EmailLink
    and Google, at most one per method the backend lists.  For an email
    that is falsy the backend is not asked and the list is empty. *)
Theorem getEmailAuthMethod_result (email : option string) (w w' : World)
    (ps : list string) :
  getEmailAuthMethod decl env email w = (Ok ps, w') ->
  same_state w w'
  /\ Forall (fun p => p <> EmptyString
                      /\ (p = AuthProviders_EmailAndPassword decl
                          \/ p = AuthProviders_EmailLink decl
                          \/ p = AuthProviders_Google decl)) ps
  /\ (truthy email = false ->
      ps = [] /\ w' = snd (logger_log "No auth methods for email" w))
  /\ (truthy email = true ->
      exists methods,
        fetchSignInMethodsForEmail env (trace w) (default EmptyString email)
        = inr methods
        /\ ps = mapMethods decl methods
        /\ (List.length ps <= List.length methods)%nat).
Proof.
  intros H.
  apply getEmailAuthMethod_Ok in H
    as (methods & -> & Hfetch & Hnone & Hsame & _).
  split; [exact Hsame|]. split; [|split].
  - apply Forall_forall. intros p Hp. apply mapMethods_elem in Hp
      as (Hne & m & _ & Hm). split; [exact Hne|]. eapply toAuthProvider_known, Hm.
  - intros Et. destruct (Hnone Et) as [-> Hw]. split; [reflexivity | exact Hw].
  - intros Et. exists methods. split; [apply Hfetch, Et|].
    split; [reflexivity | apply mapMethods_length].
Qed.

(** X2.  When the member EmailAndPassword is not empty and differs from
    EmailLink and Google, the list [getEmailAuthMethod] returns holds it
    exactly when the backend lists the password method. *)
Theorem getEmailAuthMethod_password (email : option string) (w w' : World)
    (ps methods : list string) :
  AuthProviders_EmailAndPassword decl <> EmptyString ->
  AuthProviders_EmailAndPassword decl <> AuthProviders_EmailLink decl ->
  AuthProviders_EmailAndPassword decl <> AuthProviders_Google decl ->
  truthy email = true ->
  fetchSignInMethodsForEmail env (trace w) (default EmptyString email)
  = inr methods ->
  getEmailAuthMethod decl env email w = (Ok ps, w') ->
  AuthProviders_EmailAndPassword decl ∈ ps
  <-> EMAIL_PASSWORD_SIGN_IN_METHOD decl ∈ methods.
Proof.
  intros Hne Hel Hgo Et Hfetch H.
  apply getEmailAuthMethod_Ok in H as (methods' & -> & Hfetch' & _).
  rewrite Hfetch in Hfetch'. specialize (Hfetch' Et).
  inversion Hfetch'; subst methods'.
  rewrite mapMethods_elem. split.
  - intros (_ & m & Hm & Hf). unfold toAuthProvider in Hf.
    repeat case_bool_decide; inversion Hf; subst; congruence.
  - intros Hm. split; [exact Hne|]. exists (EMAIL_PASSWORD_SIGN_IN_METHOD decl).
    split; [exact Hm|]. unfold toAuthProvider.
    rewrite bool_decide_eq_true_2; reflexivity.
Qed.

(** X3.  [getHasAccount] answers [false] for a falsy email without asking the
    backend; otherwise it answers whether the backend lists a method the
    controller recognizes, and a backend failure is a rejection, not
    [false]. *)
Theorem getHasAccount_answer (email : option string) (w : World) :
  let run := getHasAccount decl env email w in
  (truthy email = false ->
   fst run = Ok false
   /\ count_calls is_fetchSignInMethods (trace (snd run))
      = count_calls is_fetchSignInMethods (trace w))
  /\ (forall methods,
         truthy email = true ->
         fetchSignInMethodsForEmail env (trace w) (default EmptyString email)
         = inr methods ->
         fst run = Ok (existsb (recognized decl) methods))
  /\ (forall err,
         truthy email = true ->
         fetchSignInMethodsForEmail env (trace w) (default EmptyString email)
         = inl err ->
         fst run = Throw err).
Proof.
  intros run. subst run. unfold getHasAccount, getEmailAuthMethod. expose.
  split; [|split].
  - intros Et. rewrite Et. simpl. split; reflexivity.
  - intros methods Et Hf. rewrite Et. simpl. rewrite Hf. simpl.
    assert (Hex : (0 <? List.length (mapMethods decl methods))%nat
                  = existsb (recognized decl) methods).
    { clear Hf. unfold mapMethods, recognized.
      induction methods as [|m ms IH]; simpl; [reflexivity|].
      destruct (toAuthProvider decl m) as [[|c q]|]; simpl; auto. }
    destruct (bool_decide _); simpl; rewrite Hex; reflexivity.
  - intros err Et Hf. rewrite Et. simpl. rewrite Hf. reflexivity.
Qed.

(** X4.  [skipPasswordMode] never throws and returns with password-setup
    mode off, the removal of the password-reset flag being in flight.
    Once that removal has settled: when the store accepted it the flag
    is gone; when it did not, the flag stays and the rejection, which
    nobody awaits, is left unhandled. *)
Theorem skipPasswordMode_effect (w : World) :
  let now := skipPasswordMode w in
  let run := settle (skipPasswordMode_in_flight env) (snd now) in
  fst now = Ok tt
  /\ _setPasswordMode (snd now) = false
  /\ fst run = Ok tt
  /\ _setPasswordMode (snd run) = false
  /\ (storageFault env (trace w) (StorageRemove PasswordResetRequestedKey) = None ->
      storage (snd run) = delete PasswordResetRequestedKey (storage w)
      /\ unhandled (snd run) = unhandled w)
  /\ (forall err,
         storageFault env (trace w) (StorageRemove PasswordResetRequestedKey)
         = Some err ->
         storage (snd run) = storage w
         /\ unhandled (snd run) = err :: unhandled w).
Proof.
  intros now run. subst now run.
  unfold skipPasswordMode, skipPasswordMode_in_flight, settle. expose. simpl.
  split; [reflexivity|]. split; [reflexivity|].
  destruct (storageFault _ _ _) as [e|] eqn:E; simpl.
  - split; [reflexivity|]. split; [reflexivity|]. split; [discriminate|].
    intros err Herr. inversion Herr; subst. split; reflexivity.
  - split; [reflexivity|]. split; [reflexivity|].
    split; [split; reflexivity | discriminate].
Qed.

End SignInMethods.


(** ** Password sign-in, account creation, photo *)

Section PasswordSignIn.

Context (decl : Declarations) (env : Env).

Variable sdk : string -> string -> M unit.

(** X5.  [signInWithEmailPassword] calls the backend with the prepared email
    while the hint is EmailAndPassword.  When the backend rejects, the
    hint is reset to [None], the store is left alone and the same error
    is rethrown.  When the backend resolves, the password-reset flag is
    removed; if the store rejects that removal the method rejects with
    the store's error and resets the hint to [None], although the
    backend has signed the user in. *)
Theorem signInWithEmailPassword_outcomes (email password : string) (w : World) :
  let run := signInWithEmailPassword decl env sdk email password w in
  let called := snd (setNextProvider (AuthProviders_EmailAndPassword decl) w) in
  _nextProvider called = Some (AuthProviders_EmailAndPassword decl)
  /\ (forall (err : JsError) (w1 : World),
         sdk (prepareEmail (Some email)) password called = (Throw err, w1) ->
         fst run = Throw err
         /\ _nextProvider (snd run) = Some (AuthProviders_None decl)
         /\ storage (snd run) = storage w1)
  /\ (forall w1 : World,
         sdk (prepareEmail (Some email)) password called = (Ok tt, w1) ->
         (storageFault env (trace w1) (StorageRemove PasswordResetRequestedKey)
          = None ->
          fst run = Ok tt
          /\ storage (snd run) = delete PasswordResetRequestedKey (storage w1)
          /\ same_session w1 (snd run))
         /\ (forall err : JsError,
                storageFault env (trace w1)
                  (StorageRemove PasswordResetRequestedKey) = Some err ->
                fst run = Throw err
                /\ _nextProvider (snd run) = Some (AuthProviders_None decl)
                /\ storage (snd run) = storage w1
                /\ currentUser (snd run) = currentUser w1)).
Proof.
  intros run called. subst run called.
  split; [reflexivity|].
  unfold signInWithEmailPassword. expose. simpl. split.
  - intros err w1 H. rewrite H. simpl. repeat split.
  - intros w1 H. rewrite H. simpl. split.
    + intros Hst. rewrite Hst. simpl. repeat split.
    + intros err Hst. rewrite Hst. simpl. repeat split.
Qed.

(** X6.  [createAccountForEmailAndPassword] calls the backend with the
    prepared email while the hint is EmailAndPassword; it resolves when
    the backend does, leaving the hint for the reconciliation, and when
    the backend rejects it resets the hint to [None] and rethrows the
    same error.  It never touches the store. *)
Theorem createAccountForEmailAndPassword_outcomes (email password : string)
    (w : World) :
  let run := createAccountForEmailAndPassword decl sdk email password w in
  let called :=
    snd (setNextProvider (AuthProviders_EmailAndPassword decl)
           (snd (logger_log "Creating an account for " w))) in
  _nextProvider called = Some (AuthProviders_EmailAndPassword decl)
  /\ (forall (err : JsError) (w1 : World),
         sdk (prepareEmail (Some email)) password called = (Throw err, w1) ->
         fst run = Throw err
         /\ _nextProvider (snd run) = Some (AuthProviders_None decl)
         /\ storage (snd run) = storage w1)
  /\ (forall w1 : World,
         sdk (prepareEmail (Some email)) password called = (Ok tt, w1) ->
         run = (Ok tt, w1)).
Proof.
  intros run called. subst run called.
  split; [reflexivity|].
  unfold createAccountForEmailAndPassword. expose. simpl. split.
  - intros err w1 H. rewrite H. simpl. repeat split.
  - intros w1 H. rewrite H. reflexivity.
Qed.

End PasswordSignIn.

Section Photo.

Variable updateProfile : string -> M unit.

(** X7.  [updatePhotoUrl] rejects without calling the backend when the
    backend has no current user, and rethrows a backend rejection
    leaving the snapshot alone.  When the backend resolves, the
    snapshot's [photoURL] becomes the one the backend's current user now
    has, and no other field of the snapshot changes; without a snapshot
    to write to, the method rejects after the backend has been
    updated. *)
Theorem updatePhotoUrl_outcomes (photoUrl : string) (w : World) :
  let run := updatePhotoUrl updateProfile photoUrl w in
  (currentUser w = None ->
   run = (Throw (TypeError "Cannot read properties of null"), w))
  /\ (forall (fbUser : FirebaseUser) (err : JsError) (w1 : World),
         currentUser w = Some fbUser ->
         updateProfile photoUrl w = (Throw err, w1) ->
         run = (Throw err, w1))
  /\ (forall (fbUser fbUser1 : FirebaseUser) (w1 : World),
         currentUser w = Some fbUser ->
         updateProfile photoUrl w = (Ok tt, w1) ->
         currentUser w1 = Some fbUser1 ->
         (forall snap : AuthUserWithProviders,
             _authUser w1 = Some snap ->
             fst run = Ok tt
             /\ _authUser (snd run)
                = Some (with_photoURL (fb_photoURL fbUser1) snap)
             /\ storage (snd run) = storage w1
             /\ _nextProvider (snd run) = _nextProvider w1
             /\ _setPasswordMode (snd run) = _setPasswordMode w1)
         /\ (_authUser w1 = None ->
             run = (Throw (TypeError "Cannot set properties of null"), w1))).
Proof.
  intros run. subst run. unfold updatePhotoUrl. expose. simpl.
  split; [|split].
  - intros Hu. rewrite Hu. reflexivity.
  - intros fbUser err w1 Hu H. rewrite Hu, H. reflexivity.
  - intros fbUser fbUser1 w1 Hu H Hu1. rewrite Hu, H. simpl. rewrite Hu1.
    split.
    + intros snap Hs. rewrite Hs. simpl. repeat split.
    + intros Hs. rewrite Hs. reflexivity.
Qed.

End Photo.


(** ** A password update that goes through *)

Section UpdatePasswordSuccess.

Context (decl : Declarations) (env : Env).

(** X8.  When the backend accepts the new password and the methods list is
    fetched, [updatePassword] (with or without [oldPassword]) replaces
    the snapshot's [providers] by the fetched list, keeps the rest of
    the snapshot, turns password-setup mode off, removes the
    password-reset flag and returns the success result, having asked the
    backend to update once.  Without a session snapshot it rejects with
    a [TypeError] after the backend has changed the password, and
    leaves password-setup mode and the store as they were. *)
Theorem updatePassword_success (password : string)
    (oldPassword : option string) (w w2 : World) (fbUser : FirebaseUser)
    (ps : list string) :
  currentUser w = Some fbUser ->
  user_updatePassword env (trace w) password = None ->
  getEmailAuthMethod decl env (fb_email fbUser) (after_update password w)
  = (Ok ps, w2) ->
  let run := updatePassword decl env password oldPassword w in
  (forall snap : AuthUserWithProviders,
      _authUser w = Some snap ->
      storageFault env (trace w2) (StorageRemove PasswordResetRequestedKey)
      = None ->
      fst run = Ok (Some {| result := true; error := None; original := None |})
      /\ _authUser (snd run)
         = Some {| user := user snap; providers := ps;
                   currentProvider := currentProvider snap |}
      /\ _setPasswordMode (snd run) = false
      /\ storage (snd run) = delete PasswordResetRequestedKey (storage w)
      /\ updatePassword_calls (trace (snd run))
         = S (updatePassword_calls (trace w)))
  /\ (_authUser w = None ->
      fst run = Throw (TypeError "Cannot set properties of null")
      /\ _setPasswordMode (snd run) = _setPasswordMode w
      /\ storage (snd run) = storage w
      /\ updatePassword_calls (trace (snd run))
         = S (updatePassword_calls (trace w))).
Proof.
  intros Hu Hup Hget run. subst run.
  pose proof (getEmailAuthMethod_Ok _ _ _ _ _ _ Hget)
    as (methods & _ & _ & _ & Hsame & Hcalls).
  destruct Hsame as (Ha & _ & _ & Hm & _ & Hst & _).
  unfold after_update in *.
  unfold updatePassword.
  change (updatePassword_fuel decl env 2 password oldPassword)
    with (updatePassword_body decl env (updatePassword_fuel decl env 1)
            password oldPassword).
  unfold updatePassword_body, set_providers.
  unfold Storage_remove, external, call, logger_log, emit, initializing,
    modify, gets, try_catch, bind, ret, throw in *.
  simpl in *. rewrite Hu. simpl. rewrite Hup. simpl. rewrite Hget. simpl.
  rewrite Ha. split.
  - intros snap Hs Hrm. rewrite Hs. simpl. rewrite Hrm. simpl.
    unfold updatePassword_calls in *. simpl in *.
    rewrite Hst, Hcalls. repeat split.
  - intros Hs. rewrite Hs. simpl.
    unfold updatePassword_calls in *. simpl in *.
    rewrite Hm, Hst, Hcalls. repeat split.
Qed.

End UpdatePasswordSuccess.

(** ** Google sign-in followed by its reconciliation *)

Section GoogleSession.

Context (decl : Declarations) (env : Env).

(** X9.  When the popup gives a user, [signInWithGoogle] returns [true] with
    the hint still Google and that user as the backend's current user.
    Provided the member Google is not empty and differs from EmailLink,
    the reconciliation that follows commits Google as the session's
    provider, persists it, empties the hint and leaves password-setup
    mode as it was, whatever sign-in methods the account has. *)
Theorem signInWithGoogle_session (w : World) (fbUser : FirebaseUser) :
  AuthProviders_Google decl <> EmptyString ->
  AuthProviders_Google decl <> AuthProviders_EmailLink decl ->
  signInWithPopup env (trace (before_popup decl w)) = inr (Some fbUser) ->
  let w1 := snd (signInWithGoogle decl env w) in
  fst (signInWithGoogle decl env w) = Ok true
  /\ currentUser w1 = Some fbUser
  /\ _nextProvider w1 = Some (AuthProviders_Google decl)
  /\ storage w1 = storage w
  /\ (forall w2 : World,
         doInitialization (processAuthUser decl env) w1 = (Ok tt, w2) ->
         exists snap,
           _authUser w2 = Some snap
           /\ currentProvider snap = Some (AuthProviders_Google decl)
           /\ storage w2 !! AuthProviderIdKey = Some (AuthProviders_Google decl)
           /\ _nextProvider w2 = None
           /\ _setPasswordMode w2 = _setPasswordMode w).
Proof.
  intros Hne Hel Hpopup w1.
  assert (Hrun : signInWithGoogle decl env w
                 = (Ok true,
                    snd (logger_log "Google: Successfully signed in with user"
                           (set_currentUser (Some fbUser)
                              (snd (emit SignInWithPopup (before_popup decl w))))))).
  { unfold before_popup in *. unfold signInWithGoogle, doGoogleSignIn. expose.
    simpl in *. rewrite Hpopup. reflexivity. }
  subst w1. rewrite Hrun. simpl.
  split; [reflexivity|]. split; [reflexivity|]. split; [reflexivity|].
  split; [reflexivity|].
  intros w2 H. apply doInitialization_Ok in H as (w3 & H & ->).
  eapply processAuthUser_signed_in in H
    as (snap & Hs & Hp & Hn & Hst & Hm & _); [|reflexivity].
  assert (Ht : truthy (Some (AuthProviders_Google decl)) = true).
  { simpl. destruct (AuthProviders_Google decl); [congruence | reflexivity]. }
  unfold resolvedProvider in Hp. simpl in Hp, Hn, Hst, Hm.
  unfold before_popup in Hp, Hn, Hst, Hm. expose. simpl in Hp, Hn, Hst, Hm.
  change (match AuthProviders_Google decl with
          | EmptyString => false
          | String _ _ => true
          end) with (truthy (Some (AuthProviders_Google decl))) in *.
  rewrite Ht in *.
  exists snap. simpl. split; [exact Hs|]. split; [exact Hp|].
  split; [rewrite Hst; apply lookup_insert_eq|]. split; [exact Hn|].
  rewrite Hm. unfold passwordSetup. rewrite Hp.
  assert (E1 : strict_eq (Some (AuthProviders_Google decl))
                 (Some (AuthProviders_Google decl)) = true)
    by (apply bool_decide_eq_true; reflexivity).
  assert (E2 : strict_eq (Some (AuthProviders_Google decl))
                 (Some (AuthProviders_EmailLink decl)) = false)
    by (apply bool_decide_eq_false; congruence).
  rewrite E1, E2. simpl. rewrite andb_false_r, andb_false_r, orb_false_r.
  reflexivity.
Qed.

End GoogleSession.


(** ** More on the magic link *)

Section MagicLinkMore.

Context (decl : Declarations) (env : Env).

(** The request phase never touches the session side of the world. *)
Lemma sendMagicLinkRequest_session (email : string) (reason : option string)
    (w : World) :
  same_session w (snd (sendMagicLinkRequest env email reason w))
  /\ unhandled (snd (sendMagicLinkRequest env email reason w)) = unhandled w.
Proof.
  unfold sendMagicLinkRequest. expose. simpl.
  repeat (match goal with
          | |- context [match ?x with _ => _ end] =>
              lazymatch x with
              | context [match _ with _ => _ end] => fail
              | _ => destruct x
              end
          end; simpl).
  all: repeat split.
Qed.

(** X10.  [sendMagicLinkRequest] never changes the session side of the world.
    It writes the store before it asks the backend: when the store
    accepts and the backend refuses to send the link, the method rejects
    with the backend's error while the prepared email and the reason
    stay pending in the store and the password-reset flag is gone. *)
Theorem sendMagicLinkRequest_refused (email : string) (reason : option string)
    (w : World) (err : JsError) :
  (forall tr c, storageFault env tr c = None) ->
  (forall tr e u, sendSignInLinkToEmail env tr e u = Some err) ->
  let run := sendMagicLinkRequest env email reason w in
  fst run = Throw err
  /\ same_session w (snd run)
  /\ storage (snd run) !! UserSignInEmailStorageKey
     = Some (prepareEmail (Some email))
  /\ storage (snd run) !! MagicLinkReasonKey = Some (or_else reason "empty")
  /\ storage (snd run) !! PasswordResetRequestedKey = None.
Proof.
  intros Hst Hsend run. subst run.
  split; [|split; [apply sendMagicLinkRequest_session|]].
  - unfold sendMagicLinkRequest. expose. simpl.
    do 3 (rewrite Hst; simpl). rewrite Hsend. reflexivity.
  - unfold sendMagicLinkRequest. expose. simpl.
    do 3 (rewrite Hst; simpl). rewrite Hsend. simpl. repeat split.
    + rewrite lookup_delete_ne, lookup_insert_ne by discriminate.
      apply lookup_insert_eq.
    + rewrite lookup_delete_ne by discriminate. apply lookup_insert_eq.
    + apply lookup_delete_eq.
Qed.

Section Accepted.

Hypothesis store_ok : forall tr c, storageFault env tr c = None.
Hypothesis handlers_ok : forall tr c, handlersFault env tr c = None.
Hypothesis send_ok : forall tr e u, sendSignInLinkToEmail env tr e u = None.
Hypothesis link_recognized : isSignInWithEmailLink env (locationUrl env) = true.
Hypothesis redeem_ok :
  forall tr e u, exists fbUser, signInWithEmailLink env tr e u = inr fbUser.

(** The redemption phase for a pending, prepared address and reason. *)
Lemma processEmailLink_redeemed (e r : string) (w : World) :
  storage w !! UserSignInEmailStorageKey = Some e ->
  prepareEmail (Some e) = e ->
  e <> EmptyString ->
  storage w !! MagicLinkReasonKey = Some r ->
  let run := processEmailLink decl env w in
  fst run = Ok {| el_result := true; el_error := None; el_email := None |}
  /\ _nextProvider (snd run) = Some (AuthProviders_EmailLink decl)
  /\ MagicLinkSucceeded (Some r) ∈ map ev_call (trace (snd run))
  /\ (r = MagicLinkRequestReasons_PasswordReset decl ->
      _setPasswordMode (snd run) = true
      /\ storage (snd run) !! PasswordResetRequestedKey = Some "true")
  /\ (r <> MagicLinkRequestReasons_PasswordReset decl ->
      _setPasswordMode (snd run) = _setPasswordMode w
      /\ storage (snd run) !! PasswordResetRequestedKey
         = storage w !! PasswordResetRequestedKey).
Proof.
  intros Hpending Hprepared Hne Hreason run. subst run.
  destruct e as [|c e]; [congruence|].
  unfold processEmailLink. expose. simpl.
  rewrite store_ok. simpl. rewrite link_recognized, Hpending, Hprepared. simpl.
  match goal with
  | |- context [signInWithEmailLink env ?tr ?a ?u] =>
      destruct (redeem_ok tr a u) as [fbUser Hu]; rewrite Hu
  end.
  simpl. rewrite store_ok. simpl. rewrite Hreason.
  destruct (strict_eq (Some r) _) eqn:E; simpl;
    [rewrite store_ok; simpl|];
    rewrite store_ok; simpl; rewrite store_ok; simpl;
    rewrite handlers_ok; simpl.
  - apply bool_decide_eq_true in E. inversion E; subst.
    split; [reflexivity|]. split; [reflexivity|].
    split; [apply list_elem_of_In; simpl; tauto|].
    split; [|congruence]. intros _. split; [reflexivity|].
    rewrite !lookup_delete_ne by discriminate. apply lookup_insert_eq.
  - apply bool_decide_eq_false in E.
    split; [reflexivity|]. split; [reflexivity|].
    split; [apply list_elem_of_In; simpl; tauto|].
    split; [congruence|]. intros _. split; [reflexivity|].
    rewrite !lookup_delete_ne by discriminate. reflexivity.
Qed.

End Accepted.

(** X11.  With a store and handlers that do not fail, a backend that accepts
    sending and redeeming, and an address that is not blank: the request
    phase clears the password-reset flag and leaves the session alone;
    the redemption that follows succeeds, sets the hint to EmailLink and
    announces the stored reason (['empty'] when none was given).  When
    that reason is PasswordReset it sets the flag to ['true'] and turns
    password-setup mode on at once; for any other reason the flag stays
    cleared and password-setup mode is left as it was. *)
Theorem magic_link_reason (email : string) (reason : option string)
    (w : World) :
  (forall tr c, storageFault env tr c = None) ->
  (forall tr c, handlersFault env tr c = None) ->
  (forall tr e u, sendSignInLinkToEmail env tr e u = None) ->
  isSignInWithEmailLink env (locationUrl env) = true ->
  (forall tr e u, exists fbUser, signInWithEmailLink env tr e u = inr fbUser) ->
  prepareEmail (Some email) <> EmptyString ->
  let w1 := snd (sendMagicLinkRequest env email reason w) in
  let run := processEmailLink decl env w1 in
  let stored := or_else reason "empty" in
  (storage w1 !! PasswordResetRequestedKey = None /\ same_session w w1)
  /\ fst run = Ok {| el_result := true; el_error := None; el_email := None |}
  /\ _nextProvider (snd run) = Some (AuthProviders_EmailLink decl)
  /\ MagicLinkSucceeded (Some stored) ∈ map ev_call (trace (snd run))
  /\ (stored = MagicLinkRequestReasons_PasswordReset decl ->
      _setPasswordMode (snd run) = true
      /\ storage (snd run) !! PasswordResetRequestedKey = Some "true")
  /\ (stored <> MagicLinkRequestReasons_PasswordReset decl ->
      _setPasswordMode (snd run) = _setPasswordMode w
      /\ storage (snd run) !! PasswordResetRequestedKey = None).
Proof.
  intros Hst Hh Hsend Hlink Hredeem Hemail w1 run stored.
  destruct (sendMagicLinkRequest_accepted env Hst Hsend email reason w)
    as (w1' & Hreq & Hpending & Hreason & Hflag).
  destruct (sendMagicLinkRequest_session email reason w) as [Hsess _].
  assert (Hw1 : w1 = w1') by (subst w1; rewrite Hreq; reflexivity).
  fold w1 in Hsess. rewrite <- Hw1 in *. clear Hw1 w1' Hreq.
  split; [split; [exact Hflag | exact Hsess]|].
  destruct (processEmailLink_redeemed Hst Hh Hlink Hredeem _ _ w1 Hpending
              (prepareEmail_idempotent _) Hemail Hreason)
    as (Hok & Hhint & Hev & Hreset & Hother).
  split; [exact Hok|]. split; [exact Hhint|]. split; [exact Hev|].
  split; [exact Hreset|].
  intros Hne. destruct (Hother Hne) as [Hm Hf].
  destruct Hsess as (_ & _ & _ & Hm1 & _).
  split; [etransitivity; [exact Hm | exact Hm1]
         | etransitivity; [exact Hf | exact Hflag]].
Qed.

(** X12.  When the backend has redeemed the link and the store then fails to
    give the pending reason, [processEmailLink] reports that failure
    with the prepared email and resets the hint to [None], although the
    backend now has the user signed in; the pending email and reason
    stay in the store and password-setup mode is left as it was. *)
Theorem processEmailLink_store_failure (w : World) (fbUser : FirebaseUser)
    (err : JsError) :
  let pending := prepareEmail (storage w !! UserSignInEmailStorageKey) in
  let url := locationUrl env in
  let redeemed := snd (emit (SignInWithEmailLink pending url)
                         (before_redemption decl w)) in
  storageFault env (trace w) (StorageGetValue UserSignInEmailStorageKey) = None ->
  isSignInWithEmailLink env url = true ->
  truthy (Some pending) = true ->
  signInWithEmailLink env (trace (before_redemption decl w)) pending url
  = inr fbUser ->
  storageFault env (trace redeemed) (StorageGetValue MagicLinkReasonKey)
  = Some err ->
  let run := processEmailLink decl env w in
  fst run = Ok {| el_result := false; el_error := Some (linkFailure err);
                  el_email := Some pending |}
  /\ _nextProvider (snd run) = Some (AuthProviders_None decl)
  /\ currentUser (snd run) = Some fbUser
  /\ storage (snd run) = storage w
  /\ _setPasswordMode (snd run) = _setPasswordMode w.
Proof.
  intros pending url redeemed Hread Hlink Hemail Hredeem Hfail run.
  subst run redeemed url pending.
  destruct (prepareEmail (storage w !! UserSignInEmailStorageKey))
    as [|c e] eqn:Ep; [discriminate Hemail|].
  unfold before_redemption in *. unfold processEmailLink. expose. simpl in *.
  rewrite Hread. simpl. rewrite Hlink, Ep. simpl. rewrite Hredeem. simpl.
  rewrite Hfail. simpl. repeat split.
Qed.

End MagicLinkMore.


(** ** Sign-out *)

Section SignOutMore.

Context (decl : Declarations) (env : Env).

(** X13.  [signOut] resolves as soon as the guarded work has started:
    the counter is raised (so [initializing] reads [true]) and
    password-setup mode is off, while the store and the backend's user
    are as they were.  When every awaited step is accepted, the work it
    left in flight settles with nothing left unhandled, the backend
    signed out and the counter back where it was.  It removes the
    provider id and the pending reason from the store and nothing else
    (the pending email and the password-reset flag stay), and it clears
    neither the snapshot nor the hint: the snapshot is replaced by the
    reconciliation that follows.  This holds whether or not a user was
    signed in. *)
Theorem signOut_accepted (w : World) :
  (forall tr c, storageFault env tr c = None) ->
  (forall tr, googleSignOut env tr = None) ->
  (forall tr, auth_signOut env tr = None) ->
  let now := signOut w in
  let late := settle (signOut_in_flight env) (snd now) in
  (fst now = Ok tt
   /\ _initializing (snd now) = _initializing w + 1
   /\ (0 <= _initializing w -> initializing (snd now) = true)
   /\ _setPasswordMode (snd now) = false
   /\ storage (snd now) = storage w
   /\ currentUser (snd now) = currentUser w
   /\ unhandled (snd now) = unhandled w)
  /\ (fst late = Ok tt
      /\ unhandled (snd late) = unhandled w
      /\ _setPasswordMode (snd late) = false
      /\ currentUser (snd late) = None
      /\ storage (snd late)
         = delete MagicLinkReasonKey (delete AuthProviderIdKey (storage w))
      /\ _initializing (snd late) = _initializing w
      /\ _authUser (snd late) = _authUser w
      /\ _nextProvider (snd late) = _nextProvider w
      /\ _firstInit (snd late) = _firstInit w).
Proof.
  intros Hst Hg Ha now late. subst now late. split.
  - unfold signOut. expose. simpl. repeat split.
    intros Hpos. unfold initializing. simpl.
    destruct (Z.eqb_spec (_initializing w + 1) 0) as [E|E]; [lia|].
    apply orb_true_r.
  - unfold signOut, signOut_in_flight, signOut_steps, signOut_failed,
      servicesSignOut, settle, try_finally.
    expose. simpl.
    destruct (handlersFault env _ _); simpl.
    all: rewrite Hg; simpl; rewrite Hst; simpl; rewrite Hst; simpl;
      rewrite Ha; simpl.
    all: repeat split; lia.
Qed.

(** X14.  Steps of [signOut] that follow a failed one are not taken, and
    nothing is rolled back.  When the services sign-out rejects, the
    work in flight settles with password-setup mode off, but the store
    is untouched, the backend is not asked to sign out and still has
    its user; the counter is released, the failure is logged and, as
    nobody awaits the guarded work, it is left unhandled. *)
Theorem signOut_service_rejects (w : World) (err : JsError) :
  (forall tr, googleSignOut env tr = Some err) ->
  let now := signOut w in
  let late := settle (signOut_in_flight env) (snd now) in
  fst now = Ok tt
  /\ fst late = Ok tt
  /\ unhandled (snd late) = err :: unhandled w
  /\ _setPasswordMode (snd late) = false
  /\ storage (snd late) = storage w
  /\ currentUser (snd late) = currentUser w
  /\ _initializing (snd late) = _initializing w
  /\ count_calls is_authSignOut (trace (snd late))
     = count_calls is_authSignOut (trace w)
  /\ Logger LogWarn "Failed to sign out!" ∈ map ev_call (trace (snd late)).
Proof.
  intros Hg now late. subst now late.
  unfold signOut, signOut_in_flight, signOut_steps, signOut_failed,
    servicesSignOut, settle, try_finally, count_calls.
  expose. simpl.
  destruct (handlersFault env _ _); simpl.
  all: rewrite Hg; simpl.
  all: repeat split; try lia.
  all: apply list_elem_of_In; simpl; tauto.
Qed.

End SignOutMore.

(** ** Reconciliations that do not complete *)

Section ReconciliationMore.

Context (decl : Declarations) (env : Env).

(** X15.  When the backend has a user with an email and rejects the
    query for the account's sign-in methods, the reconciliation rejects
    with that error before it looks at the hint: the snapshot, the hint,
    the store and password-setup mode are as they were, and the counter
    is released.  The first-boot flag is cleared all the same, so that
    with the counter at zero [initializing] reads [false] although
    nothing was committed.  The constructor's callback awaits nothing:
    the rejection is left unhandled. *)
Theorem reconciliation_fetch_rejected (w : World) (fbUser : FirebaseUser)
    (err : JsError) :
  currentUser w = Some fbUser ->
  truthy (fb_email fbUser) = true ->
  fetchSignInMethodsForEmail env (trace w) (default EmptyString (fb_email fbUser))
  = inl err ->
  let run := doInitialization (processAuthUser decl env) w in
  fst run = Throw err
  /\ _authUser (snd run) = _authUser w
  /\ _nextProvider (snd run) = _nextProvider w
  /\ storage (snd run) = storage w
  /\ _setPasswordMode (snd run) = _setPasswordMode w
  /\ _initializing (snd run) = _initializing w
  /\ (_initializing w = 0 -> initializing (snd run) = false)
  /\ fst (onAuthStateChanged decl env w) = Ok tt
  /\ unhandled (snd (onAuthStateChanged decl env w)) = err :: unhandled w.
Proof.
  intros Hu He Hfetch run. subst run.
  unfold onAuthStateChanged, settle.
  rewrite doInitialization_run.
  unfold processAuthUser, getEmailAuthMethod. expose. simpl.
  rewrite Hu. simpl. rewrite He. simpl. rewrite Hfetch. simpl.
  repeat split; lia.
Qed.

(** X16.  When the store rejects the write of the provider id, the
    reconciliation rejects with the store's error before the commit, and
    the hint is lost: it is out of the slot, neither persisted nor
    committed. *)
Theorem reconciliation_hint_lost (w : World) (fbUser : FirebaseUser)
    (err : JsError) :
  currentUser w = Some fbUser ->
  truthy (_nextProvider w) = true ->
  (forall tr c, storageFault env tr c = Some err) ->
  (forall tr e, exists ms, fetchSignInMethodsForEmail env tr e = inr ms) ->
  let run := doInitialization (processAuthUser decl env) w in
  fst run = Throw err
  /\ _nextProvider (snd run) = None
  /\ storage (snd run) = storage w
  /\ _authUser (snd run) = _authUser w
  /\ _setPasswordMode (snd run) = _setPasswordMode w.
Proof.
  intros Hu Ht Hst Hfetch run. subst run.
  rewrite doInitialization_run.
  destruct (processAuthUser decl env _) as [r w1] eqn:H.
  unfold processAuthUser, getEmailAuthMethod, createAuthUser,
    needsCreatePassword in H.
  expose. simpl in H. rewrite Hu in H.
  crunch; try congruence.
  all: try match goal with
           | Hf : fetchSignInMethodsForEmail env ?tr ?e = inl _ |- _ =>
               let E := fresh in
               destruct (Hfetch tr e) as [? E]; rewrite E in Hf; discriminate Hf
           | Hs : storageFault env ?tr ?c = None |- _ =>
               rewrite (Hst tr c) in Hs; discriminate Hs
           end.
  all: match goal with
       | Hs : storageFault env ?tr ?c = Some _ |- _ =>
           rewrite (Hst tr c) in Hs; inversion Hs; subst
       end.
  all: simpl; repeat split.
Qed.

(** X17.  The snapshot a reconciliation commits copies the six identity
    fields of the backend's current user.  Its [providers] are what
    [getEmailAuthMethod] keeps of the methods the backend lists for the
    user's email; for a user without an email the backend is not asked
    and [providers] is empty. *)
Theorem reconciliation_snapshot (w w' : World) (fbUser : FirebaseUser) :
  currentUser w = Some fbUser ->
  doInitialization (processAuthUser decl env) w = (Ok tt, w') ->
  exists snap,
    _authUser w' = Some snap
    /\ user snap = {| uid := fb_uid fbUser;
                      displayName := fb_displayName fbUser;
                      email := fb_email fbUser;
                      emailVerified := fb_emailVerified fbUser;
                      phoneNumber := fb_phoneNumber fbUser;
                      photoURL := fb_photoURL fbUser |}
    /\ (truthy (fb_email fbUser) = false ->
        providers snap = []
        /\ count_calls is_fetchSignInMethods (trace w')
           = count_calls is_fetchSignInMethods (trace w))
    /\ (truthy (fb_email fbUser) = true ->
        exists methods,
          fetchSignInMethodsForEmail env (trace w)
            (default EmptyString (fb_email fbUser)) = inr methods
          /\ providers snap = mapMethods decl methods).
Proof.
  intros Hu H. apply doInitialization_Ok in H as (w1 & H & ->).
  unfold processAuthUser, getEmailAuthMethod, createAuthUser,
    needsCreatePassword in H.
  expose. simpl in H. rewrite Hu in H.
  crunch; try congruence.
  all: eexists; split; [reflexivity|]; simpl.
  all: match goal with
       | H : Some _ = Some _ |- _ => inversion H; subst
       end.
  all: split; [reflexivity|].
  all: split;
    [ intros Hnone; first [discriminate Hnone | split; reflexivity]
    | intros Hsome;
      first [ discriminate Hsome
            | eexists; split; [first [eassumption | reflexivity] | reflexivity] ] ].
Qed.

End ReconciliationMore.


(** ** Gates inside gates *)

(** X18.  [doInitialization] of a callback that respects the gate respects
    the gate itself, so guarded operations nest and overlap: the counter
    comes back to where it was, whether the callback resolves or
    rejects, and, even when the counter starts at zero, every call is
    made while [initializing] reads [true]. *)
Theorem doInitialization_nests {T : Type} (cb : M T) :
  gated cb ->
  gated (doInitialization cb)
  /\ (forall (w : World) (r : Res T) (w' : World),
         0 <= _initializing w ->
         doInitialization (doInitialization cb) w = (r, w') ->
         _initializing w' = _initializing w
         /\ exists new : Trace,
              trace w' = (new ++ trace w)%list /\ Forall busy new).
Proof.
  intros Hcb.
  assert (Hone : forall (U : Type) (m : M U), gated m ->
            forall (w : World) (r : Res U) (w' : World),
              doInitialization m w = (r, w') ->
              _initializing w' = _initializing w
              /\ _firstInit w' = _firstInit w
              /\ (0 <= _initializing w ->
                  exists new : Trace,
                    trace w' = (new ++ trace w)%list /\ Forall busy new)).
  { intros U m Hm w r w' H. rewrite doInitialization_run in H.
    destruct (m _) as [r1 w1] eqn:E. inversion H; subst.
    destruct (Hm _ _ _ E) as (Hi & Hf & Ht). simpl in *.
    split; [lia|]. split; [exact Hf|]. intros Hpos. apply Ht. lia. }
  assert (Hg : gated (doInitialization cb)).
  { intros w r w' H. destruct (Hone _ _ Hcb _ _ _ H) as (Hi & Hf & Ht).
    split; [exact Hi|]. split; [exact Hf|]. intros Hpos. apply Ht. lia. }
  split; [exact Hg|].
  intros w r w' Hpos H. destruct (Hone _ _ Hg _ _ _ H) as (Hi & _ & Ht).
  split; [exact Hi | exact (Ht Hpos)].
Qed.

(** ** The further properties on concrete inputs *)

Lemma getEmailAuthMethod_result_witness :
  let env := accepting ["password"; "phone"; "google.com"] in
  let w := constructed ∅ None in
  let run := getEmailAuthMethod exampleDecl env (Some "alice@example.com") w in
  fst run = Ok ["password"; "google"] /\ same_state w (snd run)
  /\ fst (getEmailAuthMethod exampleDecl env (Some EmptyString) w) = Ok [].
Proof.
  intros env w run.
  assert (Hrun : run = (Ok ["password"; "google"], snd run))
    by (vm_compute; reflexivity).
  destruct (getEmailAuthMethod_result exampleDecl env
              (Some "alice@example.com") w _ _ Hrun)
    as (Hsame & _ & _ & Hsome).
  destruct (Hsome eq_refl) as (methods & _ & _ & _).
  split; [rewrite Hrun; reflexivity|]. split; [exact Hsame|].
  assert (Hrun' : getEmailAuthMethod exampleDecl env (Some EmptyString) w
                  = (Ok [], snd (getEmailAuthMethod exampleDecl env
                                   (Some EmptyString) w)))
    by (vm_compute; reflexivity).
  destruct (getEmailAuthMethod_result exampleDecl env _ w _ _ Hrun')
    as (_ & _ & Hnone & _).
  destruct (Hnone eq_refl) as [_ Hw]. rewrite Hrun'. reflexivity.
Defined.

Lemma getEmailAuthMethod_password_witness :
  let env := accepting ["emailLink"; "password"] in
  let w := constructed ∅ None in
  "password" ∈ ["emaillink"; "password"]
  <-> "password" ∈ ["emailLink"; "password"].
Proof.
  intros env w.
  apply (getEmailAuthMethod_password exampleDecl env (Some "alice@example.com")
           w (snd (getEmailAuthMethod exampleDecl env
                     (Some "alice@example.com") w))
           ["emaillink"; "password"] ["emailLink"; "password"]).
  - discriminate.
  - discriminate.
  - discriminate.
  - reflexivity.
  - reflexivity.
  - vm_compute. reflexivity.
Defined.

Lemma getHasAccount_answer_witness :
  let w := constructed ∅ None in
  let down := with_faults (fun _ _ => None) (fun _ _ => None) None
                {| locationUrl := EmptyString;
                   storageFault := fun _ _ => None;
                   fetchSignInMethodsForEmail :=
                     fun _ _ => inl (failure "auth/network-request-failed");
                   sendSignInLinkToEmail := fun _ _ _ => None;
                   isSignInWithEmailLink := fun _ => false;
                   signInWithEmailLink := fun _ _ _ => inr alice;
                   signInWithPopup := fun _ => inr None;
                   user_updatePassword := fun _ _ => None;
                   reauthenticateWithCredential := fun _ _ => None;
                   linkWithCredential := fun _ _ => None;
                   credentialWithLink_error := fun _ _ => None;
                   auth_signOut := fun _ => None;
                   googleSignOut := fun _ => None;
                   handlersFault := fun _ _ => None |} in
  fst (getHasAccount exampleDecl (accepting ["password"]) None w) = Ok false
  /\ fst (getHasAccount exampleDecl (accepting ["phone"; "password"])
            (Some "alice@example.com") w) = Ok true
  /\ fst (getHasAccount exampleDecl (accepting ["phone"; "facebook.com"])
            (Some "alice@example.com") w) = Ok false
  /\ fst (getHasAccount exampleDecl down (Some "alice@example.com") w)
     = Throw (failure "auth/network-request-failed").
Proof.
  intros w down.
  destruct (getHasAccount_answer exampleDecl (accepting ["password"]) None w)
    as (Hnone & _ & _).
  destruct (getHasAccount_answer exampleDecl (accepting ["phone"; "password"])
              (Some "alice@example.com") w) as (_ & Hyes & _).
  destruct (getHasAccount_answer exampleDecl (accepting ["phone"; "facebook.com"])
              (Some "alice@example.com") w) as (_ & Hno & _).
  destruct (getHasAccount_answer exampleDecl down (Some "alice@example.com") w)
    as (_ & _ & Hdown).
  split; [exact (proj1 (Hnone eq_refl))|].
  split; [exact (Hyes _ eq_refl eq_refl)|].
  split; [exact (Hno _ eq_refl eq_refl)|].
  exact (Hdown _ eq_refl eq_refl).
Defined.

Lemma skipPasswordMode_effect_witness :
  let full := failure "storage/quota" in
  let broken := with_faults (fun _ _ => Some full) (fun _ _ => None) None
                  (accepting []) in
  let w := set_setPasswordMode true
             (constructed {[ PasswordResetRequestedKey := "true" ]} (Some alice)) in
  let now := snd (skipPasswordMode w) in
  let settled env := settle (skipPasswordMode_in_flight env) now in
  _setPasswordMode now = false
  /\ (storage (snd (settled (accepting []))) !! PasswordResetRequestedKey = None
      /\ _setPasswordMode (snd (settled (accepting []))) = false)
  /\ (storage (snd (settled broken)) !! PasswordResetRequestedKey = Some "true"
      /\ unhandled (snd (settled broken)) = [full]
      /\ fst (settled broken) = Ok tt).
Proof.
  intros full broken w now settled.
  destruct (skipPasswordMode_effect (accepting []) w)
    as (_ & Hnow & _ & Hoff & Hok & _).
  destruct (skipPasswordMode_effect broken w) as (_ & _ & Hres & _ & _ & Hfail).
  destruct (Hok eq_refl) as [Hst _].
  destruct (Hfail full eq_refl) as [Hst' Hun].
  split; [exact Hnow|].
  split; [split; [unfold settled, now; rewrite Hst; apply lookup_delete_eq
                 | exact Hoff]|].
  split; [unfold settled, now; rewrite Hst'; reflexivity|].
  split; [exact Hun | exact Hres].
Defined.

Lemma signInWithEmailPassword_outcomes_witness :
  let denied := failure "auth/wrong-password" in
  let full := failure "storage/quota" in
  let sdk (e p : string) : M unit :=
    if bool_decide (p = "secret")
    then modify (set_currentUser (Some alice))
    else throw denied in
  let broken := with_faults (fun _ _ => Some full) (fun _ _ => None) None
                  (accepting []) in
  let w := constructed {[ PasswordResetRequestedKey := "true" ]} None in
  let run env p := signInWithEmailPassword exampleDecl env sdk " Alice@Example.com" p w in
  (fst (run (accepting []) "guess") = Throw denied
   /\ _nextProvider (snd (run (accepting []) "guess")) = Some EmptyString)
  /\ (fst (run (accepting []) "secret") = Ok tt
      /\ storage (snd (run (accepting []) "secret")) !! PasswordResetRequestedKey
         = None
      /\ _nextProvider (snd (run (accepting []) "secret")) = Some "password")
  /\ (fst (run broken "secret") = Throw full
      /\ _nextProvider (snd (run broken "secret")) = Some EmptyString
      /\ currentUser (snd (run broken "secret")) = Some alice).
Proof.
  intros denied full sdk broken w run.
  destruct (signInWithEmailPassword_outcomes exampleDecl (accepting []) sdk
              " Alice@Example.com" "guess" w) as (_ & Hfail & _).
  destruct (signInWithEmailPassword_outcomes exampleDecl (accepting []) sdk
              " Alice@Example.com" "secret" w) as (_ & _ & Hok).
  destruct (signInWithEmailPassword_outcomes exampleDecl broken sdk
              " Alice@Example.com" "secret" w) as (_ & _ & Hbroken).
  destruct (Hfail denied _ eq_refl) as (H1 & H2 & _).
  destruct (Hok _ eq_refl) as [Hstore _].
  destruct (Hstore eq_refl) as (H3 & H4 & H5).
  destruct (Hbroken _ eq_refl) as [_ Hstore'].
  destruct (Hstore' full eq_refl) as (H6 & H7 & _ & H8).
  split; [split; [exact H1 | exact H2]|].
  split.
  - split; [exact H3|]. split; [unfold run; rewrite H4; apply lookup_delete_eq|].
    destruct H5 as (_ & _ & Hn & _). unfold run. rewrite Hn. reflexivity.
  - split; [exact H6|]. split; [exact H7 | exact H8].
Defined.

Lemma createAccountForEmailAndPassword_outcomes_witness :
  let taken := failure "auth/email-already-in-use" in
  let sdk (e p : string) : M unit :=
    if bool_decide (e = "alice@example.com")
    then throw taken
    else modify (set_currentUser (Some alice)) in
  let w := constructed ∅ None in
  (fst (createAccountForEmailAndPassword exampleDecl sdk " Alice@Example.com"
          "secret" w) = Throw taken
   /\ _nextProvider
        (snd (createAccountForEmailAndPassword exampleDecl sdk
                " Alice@Example.com" "secret" w)) = Some EmptyString)
  /\ (fst (createAccountForEmailAndPassword exampleDecl sdk "bob@example.com"
             "secret" w) = Ok tt
      /\ _nextProvider
           (snd (createAccountForEmailAndPassword exampleDecl sdk
                   "bob@example.com" "secret" w)) = Some "password").
Proof.
  intros taken sdk w.
  destruct (createAccountForEmailAndPassword_outcomes exampleDecl sdk
              " Alice@Example.com" "secret" w) as (_ & Hfail & _).
  destruct (createAccountForEmailAndPassword_outcomes exampleDecl sdk
              "bob@example.com" "secret" w) as (_ & _ & Hok).
  destruct (Hfail taken _ ltac:(vm_compute; reflexivity)) as (H1 & H2 & _).
  split; [split; [exact H1 | exact H2]|].
  rewrite (Hok _ ltac:(vm_compute; reflexivity)). split; reflexivity.
Defined.

Lemma updatePhotoUrl_outcomes_witness :
  let portrait (url : string) (u : FirebaseUser) : FirebaseUser :=
    {| fb_uid := fb_uid u; fb_displayName := fb_displayName u;
       fb_email := fb_email u; fb_emailVerified := fb_emailVerified u;
       fb_phoneNumber := fb_phoneNumber u; fb_photoURL := Some url |} in
  let updateProfile (url : string) : M unit :=
    modify (fun w => set_currentUser (portrait url <$> currentUser w) w) in
  let signedIn :=
    snd (doInitialization (processAuthUser exampleDecl (accepting ["password"]))
           (constructed ∅ (Some alice))) in
  let run := updatePhotoUrl updateProfile "https://img.example.com/a.png" in
  fst (run (constructed ∅ None))
  = Throw (TypeError "Cannot read properties of null")
  /\ fst (run (constructed ∅ (Some alice)))
     = Throw (TypeError "Cannot set properties of null")
  /\ fst (run signedIn) = Ok tt
  /\ (photoURL ∘ user) <$> _authUser (snd (run signedIn))
     = Some (Some "https://img.example.com/a.png")
  /\ currentProvider <$> _authUser (snd (run signedIn))
     = currentProvider <$> _authUser signedIn.
Proof.
  intros portrait updateProfile signedIn run.
  destruct (updatePhotoUrl_outcomes updateProfile "https://img.example.com/a.png"
              (constructed ∅ None)) as (Hnone & _ & _).
  destruct (updatePhotoUrl_outcomes updateProfile "https://img.example.com/a.png"
              (constructed ∅ (Some alice))) as (_ & _ & Hnosnap).
  destruct (updatePhotoUrl_outcomes updateProfile "https://img.example.com/a.png"
              signedIn) as (_ & _ & Hok).
  split; [unfold run; rewrite (Hnone eq_refl); reflexivity|].
  destruct (Hnosnap alice _ _ eq_refl eq_refl eq_refl) as [_ Hthrow].
  split; [unfold run; rewrite (Hthrow eq_refl); reflexivity|].
  destruct (Hok alice _ _ ltac:(vm_compute; reflexivity) eq_refl
              ltac:(vm_compute; reflexivity)) as [Hsnap _].
  destruct (_authUser signedIn) as [snap|] eqn:Es;
    [|vm_compute in Es; discriminate].
  destruct (Hsnap snap) as (H1 & H2 & _).
  { rewrite <- Es. vm_compute. reflexivity. }
  split; [exact H1|]. unfold run. rewrite H2. split; reflexivity.
Defined.

Lemma updatePassword_success_witness :
  let env := accepting ["password"] in
  let signedIn :=
    snd (doInitialization (processAuthUser exampleDecl (accepting []))
           (set_nextProvider (Some "emaillink")
              (constructed {[ PasswordResetRequestedKey := "true" ]}
                 (Some alice)))) in
  let run := updatePassword exampleDecl env "new-secret" None signedIn in
  _setPasswordMode signedIn = true
  /\ fst run = Ok (Some {| result := true; error := None; original := None |})
  /\ providers <$> _authUser (snd run) = Some ["password"]
  /\ _setPasswordMode (snd run) = false
  /\ storage (snd run) !! PasswordResetRequestedKey = None
  /\ fst (updatePassword exampleDecl env "new-secret" None
            (constructed ∅ (Some alice)))
     = Throw (TypeError "Cannot set properties of null").
Proof.
  intros env signedIn run.
  split; [vm_compute; reflexivity|].
  destruct (_authUser signedIn) as [snap|] eqn:Es;
    [|vm_compute in Es; discriminate].
  destruct (updatePassword_success exampleDecl env "new-secret" None signedIn
              (snd (getEmailAuthMethod exampleDecl env (fb_email alice)
                      (after_update "new-secret" signedIn)))
              alice ["password"]
              ltac:(vm_compute; reflexivity) eq_refl
              ltac:(vm_compute; reflexivity)) as [Hok _].
  destruct (Hok snap Es eq_refl) as (H1 & H2 & H3 & H4 & _).
  split; [exact H1|]. unfold run. rewrite H2. split; [reflexivity|].
  split; [exact H3|]. split; [rewrite H4; apply lookup_delete_eq|].
  destruct (updatePassword_success exampleDecl env "new-secret" None
              (constructed ∅ (Some alice))
              (snd (getEmailAuthMethod exampleDecl env (fb_email alice)
                      (after_update "new-secret" (constructed ∅ (Some alice)))))
              alice ["password"] eq_refl eq_refl
              ltac:(vm_compute; reflexivity)) as [_ Hnone].
  exact (proj1 (Hnone eq_refl)).
Defined.

Lemma signInWithGoogle_session_witness :
  let env := accepting [] in
  let w := constructed ∅ None in
  let w1 := snd (signInWithGoogle exampleDecl env w) in
  let w2 := snd (doInitialization (processAuthUser exampleDecl env) w1) in
  fst (signInWithGoogle exampleDecl env w) = Ok true
  /\ (exists snap, _authUser w2 = Some snap
                   /\ currentProvider snap = Some "google"
                   /\ providers snap = [])
  /\ storage w2 !! AuthProviderIdKey = Some "google"
  /\ _setPasswordMode w2 = false.
Proof.
  intros env w w1 w2.
  destruct (signInWithGoogle_session exampleDecl env w alice
              ltac:(discriminate) ltac:(discriminate) eq_refl)
    as (Hok & _ & _ & _ & Hrec).
  split; [exact Hok|].
  destruct (Hrec w2 ltac:(vm_compute; reflexivity))
    as (snap & Hs & Hp & Hst & _ & Hm).
  split; [|split; [exact Hst | exact Hm]].
  exists snap. split; [exact Hs|]. split; [exact Hp|].
  assert (E : providers <$> _authUser w2 = Some []) by (vm_compute; reflexivity).
  rewrite Hs in E. simpl in E. inversion E. reflexivity.
Defined.

Lemma sendMagicLinkRequest_refused_witness :
  let limit := failure "auth/quota-exceeded" in
  let env := with_faults (fun _ _ => None) (fun _ _ => None) (Some limit)
               (accepting []) in
  let run := sendMagicLinkRequest env " Foo@Bar.com " None
               (constructed {[ PasswordResetRequestedKey := "true" ]} None) in
  fst run = Throw limit
  /\ storage (snd run) !! UserSignInEmailStorageKey = Some "foo@bar.com"
  /\ storage (snd run) !! MagicLinkReasonKey = Some "empty"
  /\ storage (snd run) !! PasswordResetRequestedKey = None.
Proof.
  intros limit env run.
  destruct (sendMagicLinkRequest_refused env " Foo@Bar.com " None
              (constructed {[ PasswordResetRequestedKey := "true" ]} None) limit)
    as (H1 & _ & H2 & H3 & H4).
  - intros tr c. reflexivity.
  - intros tr e u. reflexivity.
  - split; [exact H1|]. split; [exact H2|]. split; [exact H3 | exact H4].
Defined.

Lemma magic_link_reason_witness :
  let env := accepting [] in
  let w := constructed ∅ None in
  let redeem reason :=
    processEmailLink exampleDecl env
      (snd (sendMagicLinkRequest env " Foo@Bar.com " reason w)) in
  (_setPasswordMode (snd (redeem (Some "password"))) = true
   /\ storage (snd (redeem (Some "password"))) !! PasswordResetRequestedKey
      = Some "true")
  /\ (_setPasswordMode (snd (redeem (Some "signin"))) = false
      /\ storage (snd (redeem (Some "signin"))) !! PasswordResetRequestedKey
         = None)
  /\ MagicLinkSucceeded (Some "empty") ∈ map ev_call (trace (snd (redeem None))).
Proof.
  intros env w redeem.
  assert (H : forall reason,
             let run := redeem reason in
             let stored := or_else reason "empty" in
             MagicLinkSucceeded (Some stored) ∈ map ev_call (trace (snd run))
             /\ (stored = "password" ->
                 _setPasswordMode (snd run) = true
                 /\ storage (snd run) !! PasswordResetRequestedKey = Some "true")
             /\ (stored <> "password" ->
                 _setPasswordMode (snd run) = _setPasswordMode w
                 /\ storage (snd run) !! PasswordResetRequestedKey = None)).
  { intros reason.
    destruct (magic_link_reason exampleDecl env " Foo@Bar.com " reason w)
      as (_ & _ & _ & Hev & Hreset & Hother).
    - intros tr c. reflexivity.
    - intros tr c. reflexivity.
    - intros tr e u. reflexivity.
    - reflexivity.
    - intros tr e u. exists alice. reflexivity.
    - vm_compute. discriminate.
    - split; [exact Hev|]. split; [exact Hreset | exact Hother]. }
  destruct (H (Some "password")) as (_ & Hreset & _).
  destruct (H (Some "signin")) as (_ & _ & Hother).
  destruct (H None) as (Hev & _ & _).
  split; [exact (Hreset eq_refl)|].
  split; [apply Hother; discriminate | exact Hev].
Defined.

Lemma processEmailLink_store_failure_witness :
  let lost := failure "storage/unavailable" in
  let store (tr : Trace) (c : Call) : option JsError :=
    match c with
    | StorageGetValue key =>
        if bool_decide (key = MagicLinkReasonKey) then Some lost else None
    | _ => None
    end in
  let env := with_faults store (fun _ _ => None) None (accepting []) in
  let w := constructed {[ UserSignInEmailStorageKey := "foo@bar.com";
                          MagicLinkReasonKey := "signin" ]} None in
  let run := processEmailLink exampleDecl env w in
  fst run = Ok {| el_result := false; el_error := Some (linkFailure lost);
                  el_email := Some "foo@bar.com" |}
  /\ _nextProvider (snd run) = Some EmptyString
  /\ currentUser (snd run) = Some alice
  /\ storage (snd run) !! UserSignInEmailStorageKey = Some "foo@bar.com".
Proof.
  intros lost store env w run.
  destruct (processEmailLink_store_failure exampleDecl env w alice lost
              eq_refl eq_refl ltac:(vm_compute; reflexivity)
              ltac:(vm_compute; reflexivity) ltac:(vm_compute; reflexivity))
    as (H1 & H2 & H3 & H4 & _).
  split; [exact H1|]. split; [exact H2|]. split; [exact H3|].
  unfold run. rewrite H4. vm_compute. reflexivity.
Defined.

Lemma signOut_accepted_witness :
  let env := accepting [] in
  let store : gmap string string :=
    {[ AuthProviderIdKey := "google"; UserSignInEmailStorageKey := "foo@bar.com" ]} in
  let signedIn :=
    snd (doInitialization (processAuthUser exampleDecl env)
           (constructed store (Some alice))) in
  let now := snd (signOut signedIn) in
  let late := snd (settle (signOut_in_flight env) now) in
  let again := snd (settle (signOut_in_flight env) (snd (signOut late))) in
  (initializing signedIn = false
   /\ initializing now = true
   /\ currentUser now = Some alice
   /\ storage now !! AuthProviderIdKey = Some "google")
  /\ (initializing late = false
      /\ currentUser late = None
      /\ storage late !! AuthProviderIdKey = None
      /\ storage late !! UserSignInEmailStorageKey = Some "foo@bar.com"
      /\ _authUser late = _authUser signedIn)
  /\ (currentUser again = None /\ unhandled again = [] /\ storage again = storage late).
Proof.
  intros env store signedIn now late again.
  assert (H : forall w,
             let now := signOut w in
             let late := settle (signOut_in_flight env) (snd now) in
             (_initializing (snd now) = _initializing w + 1
              /\ (0 <= _initializing w -> initializing (snd now) = true)
              /\ storage (snd now) = storage w
              /\ currentUser (snd now) = currentUser w)
             /\ (unhandled (snd late) = unhandled w
                 /\ currentUser (snd late) = None
                 /\ storage (snd late)
                    = delete MagicLinkReasonKey
                        (delete AuthProviderIdKey (storage w))
                 /\ _initializing (snd late) = _initializing w
                 /\ _authUser (snd late) = _authUser w
                 /\ _firstInit (snd late) = _firstInit w)).
  { intros w0.
    destruct (signOut_accepted env w0)
      as ((_ & N1 & N2 & _ & N3 & N4 & _)
          & (_ & L1 & _ & L2 & L3 & L4 & L5 & _ & L6)).
    - intros tr c. reflexivity.
    - intros tr. reflexivity.
    - intros tr. reflexivity.
    - repeat split; assumption. }
  destruct (H signedIn) as ((N1 & N2 & N3 & N4) & (L1 & L2 & L3 & L4 & L5 & L6)).
  destruct (H late) as (_ & (M1 & M2 & M3 & _)).
  split; [|split].
  - split; [vm_compute; reflexivity|].
    split; [apply N2; vm_compute; discriminate|].
    split; [unfold now; rewrite N4; vm_compute; reflexivity|].
    unfold now. rewrite N3. vm_compute. reflexivity.
  - split; [unfold initializing, late, now; rewrite L6, L4;
            vm_compute; reflexivity|].
    split; [exact L2|].
    split; [unfold late, now; rewrite L3; vm_compute; reflexivity|].
    split; [unfold late, now; rewrite L3; vm_compute; reflexivity | exact L5].
  - split; [exact M2|].
    split; [unfold again; rewrite M1; unfold late, now; rewrite L1;
            vm_compute; reflexivity|].
    unfold again. rewrite M3. unfold late, now. rewrite L3.
    vm_compute. reflexivity.
Defined.

Lemma signOut_service_rejects_witness :
  let busyErr := failure "services/busy" in
  let env :=
    {| locationUrl := locationUrl (accepting []);
       storageFault := storageFault (accepting []);
       fetchSignInMethodsForEmail := fetchSignInMethodsForEmail (accepting []);
       sendSignInLinkToEmail := sendSignInLinkToEmail (accepting []);
       isSignInWithEmailLink := isSignInWithEmailLink (accepting []);
       signInWithEmailLink := signInWithEmailLink (accepting []);
       signInWithPopup := signInWithPopup (accepting []);
       user_updatePassword := user_updatePassword (accepting []);
       reauthenticateWithCredential := reauthenticateWithCredential (accepting []);
       linkWithCredential := linkWithCredential (accepting []);
       credentialWithLink_error := credentialWithLink_error (accepting []);
       auth_signOut := auth_signOut (accepting []);
       googleSignOut := fun _ => Some busyErr;
       handlersFault := handlersFault (accepting []) |} in
  let w := constructed {[ AuthProviderIdKey := "google" ]} (Some alice) in
  let late := settle (signOut_in_flight env) (snd (signOut w)) in
  fst late = Ok tt
  /\ unhandled (snd late) = [busyErr]
  /\ _setPasswordMode (snd late) = false
  /\ storage (snd late) !! AuthProviderIdKey = Some "google"
  /\ currentUser (snd late) = Some alice
  /\ count_calls is_authSignOut (trace (snd late)) = 0%nat.
Proof.
  intros busyErr env w late.
  destruct (signOut_service_rejects env w busyErr)
    as (_ & H1 & H2 & H3 & H4 & H5 & _ & H7 & _).
  - intros tr. reflexivity.
  - split; [exact H1|]. split; [exact H2|]. split; [exact H3|].
    split; [unfold late; rewrite H4; reflexivity|].
    split; [exact H5 | exact H7].
Defined.

Lemma reconciliation_fetch_rejected_witness :
  let offline := failure "auth/network-request-failed" in
  let env :=
    {| locationUrl := locationUrl (accepting []);
       storageFault := storageFault (accepting []);
       fetchSignInMethodsForEmail := fun _ _ => inl offline;
       sendSignInLinkToEmail := sendSignInLinkToEmail (accepting []);
       isSignInWithEmailLink := isSignInWithEmailLink (accepting []);
       signInWithEmailLink := signInWithEmailLink (accepting []);
       signInWithPopup := signInWithPopup (accepting []);
       user_updatePassword := user_updatePassword (accepting []);
       reauthenticateWithCredential := reauthenticateWithCredential (accepting []);
       linkWithCredential := linkWithCredential (accepting []);
       credentialWithLink_error := credentialWithLink_error (accepting []);
       auth_signOut := auth_signOut (accepting []);
       googleSignOut := googleSignOut (accepting []);
       handlersFault := handlersFault (accepting []) |} in
  let w := set_nextProvider (Some "google") (constructed ∅ (Some alice)) in
  let run := doInitialization (processAuthUser exampleDecl env) w in
  fst run = Throw offline
  /\ _authUser (snd run) = None
  /\ _nextProvider (snd run) = Some "google"
  /\ storage (snd run) !! AuthProviderIdKey = None
  /\ initializing w = true
  /\ initializing (snd run) = false
  /\ unhandled (snd (onAuthStateChanged exampleDecl env w)) = [offline].
Proof.
  intros offline env w run.
  destruct (reconciliation_fetch_rejected exampleDecl env w alice offline
              eq_refl eq_refl eq_refl)
    as (H1 & H2 & H3 & H4 & _ & _ & H7 & _ & H9).
  split; [exact H1|]. split; [exact H2|]. split; [exact H3|].
  split; [unfold run; rewrite H4; reflexivity|].
  split; [reflexivity|]. split; [exact (H7 eq_refl) | exact H9].
Defined.

Lemma reconciliation_hint_lost_witness :
  let full := failure "storage/quota" in
  let env := with_faults (fun _ _ => Some full) (fun _ _ => None) None
               (accepting ["password"]) in
  let w := set_nextProvider (Some "google") (constructed ∅ (Some alice)) in
  let run := doInitialization (processAuthUser exampleDecl env) w in
  fst run = Throw full
  /\ _nextProvider (snd run) = None
  /\ storage (snd run) !! AuthProviderIdKey = None
  /\ _authUser (snd run) = None.
Proof.
  intros full env w run.
  destruct (reconciliation_hint_lost exampleDecl env w alice full eq_refl eq_refl)
    as (H1 & H2 & H3 & H4 & _).
  - intros tr c. reflexivity.
  - intros tr e. exists ["password"]. reflexivity.
  - split; [exact H1|]. split; [exact H2|].
    split; [unfold run; rewrite H3; reflexivity | exact H4].
Defined.

Lemma reconciliation_snapshot_witness :
  let env := accepting ["password"; "phone"] in
  let anonymous : FirebaseUser :=
    {| fb_uid := "u2"; fb_displayName := None; fb_email := None;
       fb_emailVerified := false; fb_phoneNumber := Some "+10000000000";
       fb_photoURL := None |} in
  let w1 :=
    snd (doInitialization (processAuthUser exampleDecl env)
           (constructed ∅ (Some alice))) in
  let w2 :=
    snd (doInitialization (processAuthUser exampleDecl env)
           (constructed ∅ (Some anonymous))) in
  (exists snap, _authUser w1 = Some snap
                /\ email (user snap) = Some "alice@example.com"
                /\ providers snap = ["password"])
  /\ (exists snap, _authUser w2 = Some snap
                   /\ uid (user snap) = "u2"
                   /\ providers snap = []
                   /\ count_calls is_fetchSignInMethods (trace w2) = 0%nat).
Proof.
  intros env anonymous w1 w2.
  assert (E1 : doInitialization (processAuthUser exampleDecl env)
                 (constructed ∅ (Some alice)) = (Ok tt, w1)).
  { rewrite (surjective_pairing (doInitialization _ _)).
    apply pair_equal_spec. split; [vm_compute; reflexivity | reflexivity]. }
  assert (E2 : doInitialization (processAuthUser exampleDecl env)
                 (constructed ∅ (Some anonymous)) = (Ok tt, w2)).
  { rewrite (surjective_pairing (doInitialization _ _)).
    apply pair_equal_spec. split; [vm_compute; reflexivity | reflexivity]. }
  destruct (reconciliation_snapshot exampleDecl env
              (constructed ∅ (Some alice)) w1 alice eq_refl E1)
    as (s1 & Hs1 & Hu1 & _ & Hsome).
  destruct (reconciliation_snapshot exampleDecl env
              (constructed ∅ (Some anonymous)) w2 anonymous eq_refl E2)
    as (s2 & Hs2 & Hu2 & Hnone & _).
  split.
  - exists s1. split; [exact Hs1|]. rewrite Hu1. split; [reflexivity|].
    destruct (Hsome eq_refl) as (methods & Hf & Hp).
    simpl in Hf. inversion Hf; subst methods. rewrite Hp. reflexivity.
  - exists s2. split; [exact Hs2|]. rewrite Hu2. split; [reflexivity|].
    destruct (Hnone eq_refl) as [Hp Hc]. split; [exact Hp | exact Hc].
Defined.

Lemma doInitialization_nests_witness :
  let env := accepting [] in
  let w := constructed ∅ (Some alice) in
  let run := doInitialization (doInitialization (signOut_guarded env)) w in
  _initializing (snd run) = 0
  /\ exists new : Trace, trace (snd run) = (new ++ trace w)%list /\ Forall busy new.
Proof.
  intros env w run.
  destruct (doInitialization_nests (signOut_guarded env)
              (gated_signOut_guarded env)) as [_ H].
  apply (H w (fst run) (snd run)); [simpl; lia|].
  subst run. destruct (doInitialization _ w). reflexivity.
Defined.
